(** * mastodon_bot: rate limiter, response generator and scheduler loop

    A shallow embedding of [src/mastodon_bot.py].  Python strings are lists of
    code points, [asyncio.sleep], [print] and the calls to the external
    services are recorded in a trace, and a raised [Exception] is a value of
    a small error monad, so that every [try]/[except] of the source is
    visible in the model. *)

From stdpp Require Import base gmap sets strings.
From Stdlib Require Import Ascii String ZArith List Lia Sorted.
Import ListNotations.

Set Default Proof Using "Type".
Local Open Scope Z_scope.

(** ** Python strings *)

Module PyStr.

(** A [str] is a sequence of Unicode code points; [len] counts them. *)
Definition codepoint := N.
Definition pystr := list codepoint.

(** An ASCII literal of the source, as a [str]. *)
Definition py (s : string) : pystr :=
  List.map N_of_ascii (list_ascii_of_string s).

Definition len (s : pystr) : Z := Z.of_nat (List.length s).

(** [s[:n]] for a non-negative literal [n]. *)
Definition slice_to (n : nat) (s : pystr) : pystr := firstn n s.

(** The code points [str.isspace] accepts (CPython's
    [_PyUnicode_IsWhitespace]); [str.strip()] removes exactly these. *)
Definition isspace (c : codepoint) : bool :=
  ((9 <=? c) && (c <=? 13) || (28 <=? c) && (c <=? 32)
   || (c =? 133) || (c =? 160) || (c =? 5760)
   || (8192 <=? c) && (c <=? 8202)
   || (c =? 8232) || (c =? 8233) || (c =? 8239) || (c =? 8287)
   || (c =? 12288))%N.

Fixpoint lstrip (s : pystr) : pystr :=
  match s with
  | [] => []
  | c :: rest => if isspace c then lstrip rest else s
  end.

Definition rstrip (s : pystr) : pystr := rev (lstrip (rev s)).

Definition strip (s : pystr) : pystr := rstrip (lstrip s).

(** Truthiness of a [str]: the empty string is falsy. *)
Definition truthy (s : pystr) : bool :=
  match s with [] => false | _ => true end.

Definition quote : pystr := [34%N].
Definition nl : pystr := [10%N].

End PyStr.

Import PyStr.

(** ** Exceptions and the effect monad *)

(** Everything the source catches is caught by [except Exception]; an
    exception is represented by its message. *)
Inductive Exn : Type := Exception (message : pystr).

Module Eff.

(** A computation over a state [S] either returns a value or raises. *)
Definition M (S A : Type) : Type := S -> (Exn + A) * S.

Definition ret {S A} (a : A) : M S A := fun s => (inr a, s).

Definition raise {S A} (e : Exn) : M S A := fun s => (inl e, s).

Definition bind {S A B} (m : M S A) (k : A -> M S B) : M S B :=
  fun s =>
    match m s with
    | (inl e, s') => (inl e, s')
    | (inr a, s') => k a s'
    end.

(** [try: m except Exception as e: h e]. *)
Definition try_except {S A} (m : M S A) (h : Exn -> M S A) : M S A :=
  fun s =>
    match m s with
    | (inl e, s') => h e s'
    | (inr a, s') => (inr a, s')
    end.

Definition modify {S} (f : S -> S) : M S unit := fun s => (inr tt, f s).

End Eff.

Import Eff.

Declare Scope eff_scope.
Delimit Scope eff_scope with eff.
Notation "x <- m ;; k" := (bind m (fun x => k))
  (at level 100, m at next level, right associativity) : eff_scope.
Notation "m ;; k" := (bind m (fun _ => k))
  (at level 100, right associativity) : eff_scope.
Local Open Scope eff_scope.

(** ** Response generator: [generate_entertainment_response] *)

Module Generator.

(** One entry of [images]: the downloaded image and the attachment's
    description ([None] or a string). *)
Record ImageData (Image : Type) : Type := mkImageData {
  image : Image;
  description : option pystr
}.
Arguments mkImageData {Image}.
Arguments image {Image}.
Arguments description {Image}.

(** A media attachment as [_get_media_attachments] yields it. *)
Record Media : Type := mkMedia {
  url : pystr;
  media_description : option pystr
}.

(** One element of [content_parts]. *)
Inductive Part (Image : Type) : Type :=
| PText (text : pystr)
| PImage (img : Image).
Arguments PText {Image}.
Arguments PImage {Image}.

(** [generation_config] of the multimodal call, in thousandths. *)
Record GenerationConfig : Type := mkConfig {
  temperature_milli : Z;
  top_p_milli : Z;
  top_k : Z
}.

(** The two shapes of [self.model.generate_content(...)]. *)
Inductive Request (Image : Type) : Type :=
| Multimodal (content_parts : list (Part Image)) (cfg : GenerationConfig)
| TextOnly (prompt : pystr).
Arguments Multimodal {Image}.
Arguments TextOnly {Image}.

(** What [print] is given. *)
Inductive Message : Type :=
| MsgRetry (attempt_number max_retries wait_time : Z)
| MsgError (e : Exn).

Inductive Event (Image : Type) : Type :=
| EvDownload (u : pystr)
| EvSleep (seconds : Z)
| EvGenerate (req : Request Image)
| EvPrint (m : Message).
Arguments EvDownload {Image}.
Arguments EvSleep {Image}.
Arguments EvGenerate {Image}.
Arguments EvPrint {Image}.

(** The state a call threads: the trace so far and the number of calls
    already made to the generation service. *)
Record State (Image : Type) : Type := mkState {
  trace : list (Event Image);
  calls : nat
}.
Arguments mkState {Image}.
Arguments trace {Image}.
Arguments calls {Image}.

Definition fallback : pystr :=
  [10024%N] ++ py " Interesting perspective! Thanks for sharing! " ++ [127775%N].

Definition rules : pystr :=
  nl ++ py "        Rules:"
  ++ nl ++ py "        - Maximum 2 sentences"
  ++ nl ++ py "        - Include 1-2 emojis"
  ++ nl ++ py "        - Be witty and friendly"
  ++ nl ++ py "        - Match the post's tone"
  ++ nl ++ py "        - Add a relevant pop culture reference if it fits naturally"
  ++ nl ++ py "        - Reference image content naturally (if images present)"
  ++ nl ++ py "        "
  ++ nl ++ py "        Format: Just the response text with emojis."
  ++ nl ++ py "        ".

Section WithServices.

(** The helpers [_clean_html], [_get_media_attachments] and
    [_download_image] are called but not defined in the source file, and
    the generation service is external: all four are parameters.  The
    service's answer may depend on the request and on how many calls
    came before, so every sequence of outcomes is covered. *)
Context {Image Status : Type}.
Variable _clean_html : pystr -> pystr.
Variable _get_media_attachments : Status -> list Media.
Variable _download_image : pystr -> option Image.
Variable service : nat -> Request Image -> Exn + pystr.

Local Abbreviation St := (State Image).

Definition emit (ev : Event Image) : M St unit :=
  modify (fun s => mkState (trace s ++ [ev]) (calls s)).

Definition sleep (seconds : Z) : M St unit := emit (EvSleep seconds).

Definition print (m : Message) : M St unit := emit (EvPrint m).

Definition download_image (u : pystr) : M St (option Image) :=
  emit (EvDownload u) ;; ret (_download_image u).

(** [self.model.generate_content(...)], with [response.text] read. *)
Definition generate_content (req : Request Image) : M St pystr :=
  fun s =>
    (service (calls s) req,
     mkState (trace s ++ [EvGenerate req]) (S (calls s))).

(** [for media in media_attachments: if image := await ...: append]. *)
Fixpoint collect_images (media : list Media) : M St (list (ImageData Image)) :=
  match media with
  | [] => ret []
  | m :: rest =>
      got <- download_image (url m) ;;
      more <- collect_images rest ;;
      ret (match got with
           | Some img => mkImageData img (media_description m) :: more
           | None => more
           end)
  end.

(** [content_parts]: the prompt, then each image followed by its
    description when that is truthy. *)
Fixpoint image_parts (images : list (ImageData Image)) : list (Part Image) :=
  match images with
  | [] => []
  | d :: rest =>
      PImage (image d)
      :: match description d with
         | Some txt =>
             if truthy txt
             then PText (py "Image description: " ++ txt) :: image_parts rest
             else image_parts rest
         | None => image_parts rest
         end
  end.

Definition build_prompt (clean_text : pystr) (images : list (ImageData Image)) : pystr :=
  let base_prompt :=
    py "Create a fun, short response to this post: "
    ++ quote ++ clean_text ++ quote ++ py " " in
  let base_prompt :=
    match images with
    | [] => base_prompt
    | _ => base_prompt
           ++ nl ++ py "The post includes images which I'll analyze for context."
           ++ nl ++ py "Incorporate relevant details from the images in the response."
    end in
  base_prompt ++ rules.

Definition build_request (prompt : pystr) (images : list (ImageData Image)) : Request Image :=
  match images with
  | [] => TextOnly prompt
  | _ => Multimodal (PText prompt :: image_parts images) (mkConfig 700 800 40)
  end.

(** How one pass through the body of the [for] loop ends. *)
Inductive Flow : Type :=
| Return (value : pystr)
| Continue.

Definition attempt_body (req : Request Image) (max_retries attempt : Z) : M St Flow :=
  try_except
    (sleep 5 ;;
     response_text <- generate_content req ;;
     ret (Return (strip (slice_to 240 response_text))))
    (fun e =>
       if attempt <? max_retries - 1 then
         let wait_time := 10 * (attempt + 1) in
         print (MsgRetry (attempt + 1) max_retries wait_time) ;;
         sleep wait_time ;;
         ret Continue
       else
         print (MsgError e) ;;
         ret (Return fallback)).

(** The [for attempt in ...] loop; running off its end is Python's
    implicit [return None]. *)
Fixpoint attempt_loop (req : Request Image) (max_retries : Z) (attempts : list Z)
  : M St (option pystr) :=
  match attempts with
  | [] => ret None
  | attempt :: rest =>
      flow <- attempt_body req max_retries attempt ;;
      match flow with
      | Return value => ret (Some value)
      | Continue => attempt_loop req max_retries rest
      end
  end.

(** [range(n)]: empty for [n <= 0]. *)
Definition range (n : Z) : list Z := List.map Z.of_nat (seq 0 (Z.to_nat n)).

Definition generate_entertainment_response
    (post_text : pystr) (status : option Status) (max_retries : Z)
  : M St (option pystr) :=
  let clean_text := _clean_html post_text in
  images <- match status with
            | Some st => collect_images (_get_media_attachments st)
            | None => ret []
            end ;;
  let prompt := build_prompt clean_text images in
  attempt_loop (build_request prompt images) max_retries (range max_retries).

Definition default_max_retries : Z := 3.

(** *** Reading a trace *)

Fixpoint sleeps (tr : list (Event Image)) : list Z :=
  match tr with
  | [] => []
  | EvSleep d :: rest => d :: sleeps rest
  | _ :: rest => sleeps rest
  end.

(** The [images] list the loop over the attachments builds. *)
Fixpoint fetched_images (media : list Media) : list (ImageData Image) :=
  match media with
  | [] => []
  | m :: rest =>
      match _download_image (url m) with
      | Some img => mkImageData img (media_description m) :: fetched_images rest
      | None => fetched_images rest
      end
  end.

Definition images_of (status : option Status) : list (ImageData Image) :=
  match status with
  | Some st => fetched_images (_get_media_attachments st)
  | None => []
  end.

Definition downloads_of (status : option Status) : list (Event Image) :=
  match status with
  | Some st => List.map (fun m => EvDownload (url m)) (_get_media_attachments st)
  | None => []
  end.

(** The request every attempt of one call sends. *)
Definition request_of (post_text : pystr) (status : option Status) : Request Image :=
  let images := images_of status in
  build_request (build_prompt (_clean_html post_text) images) images.

(** What a failed attempt that is retried leaves in the trace. *)
Definition retry_events (req : Request Image) (max_retries : Z) (attempt : nat)
  : list (Event Image) :=
  [ EvSleep 5; EvGenerate req;
    EvPrint (MsgRetry (Z.of_nat attempt + 1) max_retries (10 * (Z.of_nat attempt + 1)));
    EvSleep (10 * (Z.of_nat attempt + 1)) ].

End WithServices.

(** *** Concrete services for the examples

No markup to clean, no attachments, and a generation service that
follows a script. *)

Definition no_media (_ : unit) : list Media := [].
Definition no_image (_ : pystr) : option unit := None.
Definition plain (text : pystr) : pystr := text.
Definition timeout : Exn := Exception (py "timeout").

Definition always_failing (_ : nat) (_ : Request unit) : Exn + pystr := inl timeout.

Definition failing_once (call : nat) (_ : Request unit) : Exn + pystr :=
  match call with
  | O => inl timeout
  | _ => inr (py "  Nice one!  ")
  end.

Definition fresh : State unit := mkState [] 0.

Definition example_run (service : nat -> Request unit -> Exn + pystr) (max_retries : Z)
  : (Exn + option pystr) * State unit :=
  generate_entertainment_response plain no_media no_image service
    (py "hello") None max_retries fresh.

(** *** More readings of a trace and of a request *)

(** The calls to the generation service a trace shows. *)
Definition generations {Image : Type} (tr : list (Event Image)) : nat :=
  List.length
    (List.filter (fun ev => match ev with EvGenerate _ => true | _ => false end) tr).

(** The urls a trace shows a download of, in order. *)
Definition downloaded {Image : Type} (tr : list (Event Image)) : list pystr :=
  flat_map (fun ev => match ev with EvDownload u => [u] | _ => [] end) tr.

(** The seconds a trace spends asleep. *)
Definition total_sleep {Image : Type} (tr : list (Event Image)) : Z :=
  fold_right Z.add 0 (sleeps tr).

(** The images among the parts of a request, in order. *)
Definition images_in {Image : Type} (parts : list (Part Image)) : list Image :=
  flat_map (fun p => match p with PImage img => [img] | PText _ => [] end) parts.

(** The descriptions among the parts that follow the prompt, in order. *)
Definition descriptions_in {Image : Type} (parts : list (Part Image)) : list pystr :=
  flat_map (fun p => match p with PText txt => [txt] | PImage _ => [] end) parts.

(** The attachments of an optional status: none when there is no status. *)
Definition attachments_of {Status : Type}
    (_get_media_attachments : Status -> list Media) (status : option Status)
  : list Media :=
  match status with
  | Some st => _get_media_attachments st
  | None => []
  end.

(** A service that answers with white space only. *)
Definition blank (_ : nat) (_ : Request unit) : Exn + pystr := inr (py "   ").

End Generator.

(** ** The bot's state: [MastodonBot.__init__] *)

(** Wall-clock time is counted in ticks of [1/hz] of a second, for an
    arbitrary resolution [hz]; [secs hz n] is [n] seconds. *)
Definition secs (hz : positive) (n : Z) : Z := n * Z.pos hz.

Inductive PostStyle : Type := MEME | ENTERTAINER | INFORMATIVE | STORYTELLER | ANALYST.

Record PostConfig : Type := mkPostConfig {
  use_hashtags : bool;
  max_length : Z;
  blacklisted_words : list pystr
}.

Record Bot : Type := mkBot {
  last_request_time : Z;
  request_count : Z;
  max_requests_per_minute : Z;
  retry_delay : Z;
  auto_post_interval : Z;
  last_post_time : Z;
  post_count : Z;
  max_daily_posts : Z;
  current_style : PostStyle;
  replied_dms : gset pystr;
  dm_context_file : string;
  post_config : PostConfig;
  hashtags_to_monitor : list string;
  is_running : bool
}.

Module BotState.

(** [__init__] at wall-clock time [t0]; [loaded] is what
    [_load_dm_context] (not in the source file) put into [replied_dms]. *)
Definition init (hz : positive) (t0 : Z) (loaded : gset pystr) : Bot :=
  {| last_request_time := 0;
     request_count := 0;
     max_requests_per_minute := 30;
     retry_delay := 5;
     auto_post_interval := secs hz 1800;
     last_post_time := t0;
     post_count := 0;
     max_daily_posts := 48;
     current_style := ENTERTAINER;
     replied_dms := loaded;
     dm_context_file := "dm_context.json";
     post_config := mkPostConfig true 240 [];
     hashtags_to_monitor := ["tech"; "AI"; "programming"]%string;
     is_running := false |}.

Definition set_last_request_time (v : Z) (b : Bot) : Bot :=
  mkBot v (request_count b) (max_requests_per_minute b) (retry_delay b)
        (auto_post_interval b) (last_post_time b) (post_count b) (max_daily_posts b)
        (current_style b) (replied_dms b) (dm_context_file b) (post_config b)
        (hashtags_to_monitor b) (is_running b).

Definition set_request_count (v : Z) (b : Bot) : Bot :=
  mkBot (last_request_time b) v (max_requests_per_minute b) (retry_delay b)
        (auto_post_interval b) (last_post_time b) (post_count b) (max_daily_posts b)
        (current_style b) (replied_dms b) (dm_context_file b) (post_config b)
        (hashtags_to_monitor b) (is_running b).

Definition set_last_post_time (v : Z) (b : Bot) : Bot :=
  mkBot (last_request_time b) (request_count b) (max_requests_per_minute b) (retry_delay b)
        (auto_post_interval b) v (post_count b) (max_daily_posts b)
        (current_style b) (replied_dms b) (dm_context_file b) (post_config b)
        (hashtags_to_monitor b) (is_running b).

Definition set_post_count (v : Z) (b : Bot) : Bot :=
  mkBot (last_request_time b) (request_count b) (max_requests_per_minute b) (retry_delay b)
        (auto_post_interval b) (last_post_time b) v (max_daily_posts b)
        (current_style b) (replied_dms b) (dm_context_file b) (post_config b)
        (hashtags_to_monitor b) (is_running b).

Definition set_is_running (v : bool) (b : Bot) : Bot :=
  mkBot (last_request_time b) (request_count b) (max_requests_per_minute b) (retry_delay b)
        (auto_post_interval b) (last_post_time b) (post_count b) (max_daily_posts b)
        (current_style b) (replied_dms b) (dm_context_file b) (post_config b)
        (hashtags_to_monitor b) v.

(** The configuration of a scenario: same bot, other quota and interval. *)
Definition configure (interval max_posts : Z) (b : Bot) : Bot :=
  mkBot (last_request_time b) (request_count b) (max_requests_per_minute b) (retry_delay b)
        interval (last_post_time b) (post_count b) max_posts
        (current_style b) (replied_dms b) (dm_context_file b) (post_config b)
        (hashtags_to_monitor b) (is_running b).

End BotState.

Import BotState.

(** ** Rate limiter: [_handle_rate_limit] *)

Module RateLimiter.

(** The clock, the bot, and by how much each coming [asyncio.sleep]
    oversleeps (a sleep lasts at least as long as asked; no entry means
    exactly as long). *)
Record World : Type := mkWorld {
  clock : Z;
  lags : list N;
  bot : Bot
}.

Section Clocked.

Variable hz : positive.

Definition time_time : M World Z := fun w => (inr (clock w), w).

(** [await asyncio.sleep(d)]: a non-positive [d] returns at once. *)
Definition asyncio_sleep (d : Z) : M World unit :=
  modify (fun w =>
            mkWorld (clock w + Z.max 0 d + Z.of_N (hd 0%N (lags w)))
                    (tl (lags w)) (bot w)).

Definition self : M World Bot := fun w => (inr (bot w), w).

Definition update (f : Bot -> Bot) : M World unit :=
  modify (fun w => mkWorld (clock w) (lags w) (f (bot w))).

Definition when (c : bool) (m : M World unit) : M World unit :=
  if c then m else ret tt.

Definition _handle_rate_limit : M World unit :=
  current_time <- time_time ;;
  b <- self ;;
  let time_diff := current_time - last_request_time b in
  when (time_diff >=? secs hz 60)
       (update (set_request_count 0) ;;
        update (set_last_request_time current_time)) ;;
  b <- self ;;
  when (request_count b >=? max_requests_per_minute b)
       (let wait_time := secs hz 60 - time_diff in
        when (wait_time >? 0)
             (asyncio_sleep wait_time ;;
              update (set_request_count 0) ;;
              now <- time_time ;;
              update (set_last_request_time now))) ;;
  asyncio_sleep (secs hz 2) ;;
  b <- self ;;
  update (set_request_count (request_count b + 1)).

(** A sequence of calls: before each one the caller is busy elsewhere
    for [gap] ticks; the result lists the times at which the calls
    return, that is, at which the requests proceed. *)
Fixpoint serve (gaps : list N) : M World (list Z) :=
  match gaps with
  | [] => ret []
  | gap :: rest =>
      modify (fun w => mkWorld (clock w + Z.of_N gap) (lags w) (bot w)) ;;
      _handle_rate_limit ;;
      proceeded <- time_time ;;
      later <- serve rest ;;
      ret (proceeded :: later)
  end.

(** The requests that proceed in the window of 60 seconds that starts
    at [start]. *)
Definition in_window (start : Z) (times : list Z) : list Z :=
  List.filter (fun t => (start <=? t) && (t <? start + secs hz 60)) times.

End Clocked.

(** Lists whose consecutive elements are at least [gap] apart. *)
Definition spaced (gap : Z) (times : list Z) : Prop :=
  StronglySorted (fun a b => a + gap <= b) times.

(** The sum of a list of durations. *)
Definition total (durations : list N) : Z :=
  fold_right (fun d acc => Z.of_N d + acc) 0 durations.

(** A window is paced when its count is not ahead of the clock: since
the window started, at least 2 seconds have passed for every request it
counts. *)
Definition paced (hz : positive) (w : World) : Prop :=
  0 <= request_count (bot w)
  /\ max_requests_per_minute (bot w) = 30
  /\ secs hz 2 * request_count (bot w) <= clock w - last_request_time (bot w).

End RateLimiter.

(** ** Scheduler loops: [run_forever], [schedule_auto_posts], [monitor_hashtag] *)

Module Scheduler.

Record DateTime : Type := mkDateTime { hour : Z; minute : Z }.

(** What the world outside does during one iteration: the reading of
    [time.time()], whether the two actions that are not in the source
    file ([create_scheduled_post], [handle_direct_messages]) and
    [auto_like_trending_posts] raise, whether the body of
    [monitor_hashtag] raises for a hashtag, and the two readings of
    [datetime.now()] of the midnight test. *)
Record Env : Type := mkEnv {
  current_time : Z;
  post_outcome : option Exn;
  monitor_outcome : string -> option Exn;
  dm_outcome : option Exn;
  like_outcome : option Exn;
  now_first : DateTime;
  now_second : DateTime
}.

Inductive Message : Type :=
| MsgStarting
| MsgStartingService
| MsgAutoPostComplete (posts_today max_posts : Z)
| MsgHashtagError (hashtag : string) (e : Exn)
| MsgMainLoopError (e : Exn)
| MsgAutoPostingLoopError (e : Exn).

Inductive Event : Type :=
| EvCreatePost
| EvMonitorHashtag (hashtag : string)
| EvHandleDMs
| EvAutoLike
| EvSleep (seconds : Z)
| EvPrint (m : Message).

Record State : Type := mkState {
  bot : Bot;
  trace : list Event
}.

(** [self.dm_settings], which [schedule_auto_posts] reads; [__init__]
    does not set it. *)
Record DMSettings : Type := mkDMSettings {
  enabled : bool;
  auto_reply : bool;
  reply_interval : Z
}.

Section Clocked.

Variable hz : positive.

Definition emit (ev : Event) : M State unit :=
  modify (fun s => mkState (bot s) (trace s ++ [ev])).

Definition sleep (seconds : Z) : M State unit := emit (EvSleep seconds).
Definition print (m : Message) : M State unit := emit (EvPrint m).

Definition self : M State Bot := fun s => (inr (bot s), s).

Definition update (f : Bot -> Bot) : M State unit :=
  modify (fun s => mkState (f (bot s)) (trace s)).

Definition when (c : bool) (m : M State unit) : M State unit :=
  if c then m else ret tt.

(** An awaited action: it starts, then completes or raises. *)
Definition action (ev : Event) (outcome : option Exn) : M State unit :=
  emit ev ;;
  match outcome with
  | Some e => raise e
  | None => ret tt
  end.

Definition create_scheduled_post (env : Env) : M State unit :=
  action EvCreatePost (post_outcome env).

Definition handle_direct_messages (env : Env) : M State unit :=
  action EvHandleDMs (dm_outcome env).

Definition auto_like_trending_posts (env : Env) : M State unit :=
  action EvAutoLike (like_outcome env).

(** [monitor_hashtag]: whatever its body (rate limiter, search,
    replies) raises is caught and printed. *)
Definition monitor_hashtag (env : Env) (hashtag : string) : M State unit :=
  try_except
    (action (EvMonitorHashtag hashtag) (monitor_outcome env hashtag))
    (fun e => print (MsgHashtagError hashtag e)).

Fixpoint for_each (hashtags : list string) (body : string -> M State unit)
  : M State unit :=
  match hashtags with
  | [] => ret tt
  | h :: rest => body h ;; for_each rest body
  end.

(** [datetime.now().hour == 0 and datetime.now().minute == 0]. *)
Definition is_midnight (env : Env) : bool :=
  (hour (now_first env) =? 0) && (minute (now_second env) =? 0).

(** The [if] that guards the scheduled post, shared by both loops. *)
Definition post_if_under_quota (env : Env) : M State unit :=
  b <- self ;;
  when (post_count b <? max_daily_posts b)
       (create_scheduled_post env ;;
        update (set_last_post_time (current_time env)) ;;
        b <- self ;;
        update (set_post_count (post_count b + 1)) ;;
        b <- self ;;
        print (MsgAutoPostComplete (post_count b) (max_daily_posts b))).

(** The [try] block of one iteration of [run_forever]. *)
Definition run_forever_body (env : Env) : M State unit :=
  b <- self ;;
  when (current_time env - last_post_time b >=? auto_post_interval b)
       (post_if_under_quota env) ;;
  b <- self ;;
  for_each (hashtags_to_monitor b) (monitor_hashtag env) ;;
  handle_direct_messages env ;;
  when (is_midnight env) (update (set_post_count 0)) ;;
  sleep 60.

Definition run_forever_iteration (env : Env) : M State unit :=
  try_except
    (run_forever_body env)
    (fun e => print (MsgMainLoopError e) ;; sleep 300).

(** [while self.is_running:], observed for as many iterations as
    there are environments. *)
Fixpoint main_loop (envs : list Env) : M State unit :=
  match envs with
  | [] => ret tt
  | env :: rest =>
      b <- self ;;
      if is_running b
      then run_forever_iteration env ;; main_loop rest
      else ret tt
  end.

Definition run_forever (envs : list Env) : M State unit :=
  update (set_is_running true) ;;
  print MsgStarting ;;
  main_loop envs.

(** The [try] block of one iteration of [schedule_auto_posts];
    [settings] is [None] when the attribute [dm_settings] is missing,
    and a zero [reply_interval] makes [%] raise. *)
Definition schedule_auto_posts_body
    (settings : option DMSettings) (attribute_error zero_division : Exn)
    (first_run : bool) (env : Env) : M State bool :=
  b <- self ;;
  first_run <-
    (if first_run || (current_time env - last_post_time b >=? auto_post_interval b)
     then post_if_under_quota env ;; ret false
     else ret first_run) ;;
  match settings with
  | None => raise attribute_error
  | Some dm =>
      when (enabled dm && auto_reply dm)
           (if reply_interval dm =? 0 then raise zero_division
            else when (current_time env mod reply_interval dm <? secs hz 60)
                      (handle_direct_messages env))
  end ;;
  when (current_time env mod secs hz 300 <? secs hz 60)
       (auto_like_trending_posts env) ;;
  sleep 60 ;;
  ret first_run.

(** One iteration with its [except]; [first_run] is a local variable,
    so what the [try] block assigned before raising is kept only if the
    assignment was reached: the post step is the one place that does. *)
Definition schedule_auto_posts_iteration
    (settings : option DMSettings) (attribute_error zero_division : Exn)
    (first_run : bool) (env : Env) : M State bool :=
  fun s =>
    match schedule_auto_posts_body settings attribute_error zero_division first_run env s with
    | (inr fr, s') => (inr fr, s')
    | (inl e, s') =>
        let b := bot s in
        let reached :=
          (first_run || (current_time env - last_post_time b >=? auto_post_interval b))
          && negb ((post_count b <? max_daily_posts b)
                   && match post_outcome env with Some _ => true | None => false end) in
        ((print (MsgAutoPostingLoopError e) ;; sleep 300 ;;
          ret (if reached then false else first_run)) s')
    end.

(** [while True:] of [schedule_auto_posts], observed for as many
iterations as there are environments. *)
Fixpoint auto_posts_loop
    (settings : option DMSettings) (attribute_error zero_division : Exn)
    (first_run : bool) (envs : list Env) : M State unit :=
  match envs with
  | [] => ret tt
  | env :: rest =>
      first_run <- schedule_auto_posts_iteration
                     settings attribute_error zero_division first_run env ;;
      auto_posts_loop settings attribute_error zero_division first_run rest
  end.

Definition schedule_auto_posts
    (settings : option DMSettings) (attribute_error zero_division : Exn)
    (envs : list Env) : M State unit :=
  print MsgStartingService ;;
  auto_posts_loop settings attribute_error zero_division true envs.

(** *** Reading a trace *)

Definition is_action (ev : Event) : bool :=
  match ev with
  | EvCreatePost | EvMonitorHashtag _ | EvHandleDMs | EvAutoLike => true
  | _ => false
  end.

Definition actions (tr : list Event) : list Event := List.filter is_action tr.

Definition is_post (ev : Event) : bool :=
  match ev with EvCreatePost => true | _ => false end.

Definition posts (tr : list Event) : nat := List.length (List.filter is_post tr).

Definition is_auto_like (ev : Event) : bool :=
  match ev with EvAutoLike => true | _ => false end.

(** What the loop over the hashtags leaves in the trace. *)
Definition monitor_events (env : Env) (hashtags : list string) : list Event :=
  flat_map
    (fun h =>
       EvMonitorHashtag h
       :: match monitor_outcome env h with
          | Some e => [EvPrint (MsgHashtagError h e)]
          | None => []
          end)
    hashtags.

(** The body of [run_forever] after the post step. *)
Definition after_post_step (env : Env) : M State unit :=
  b <- self ;;
  for_each (hashtags_to_monitor b) (monitor_hashtag env) ;;
  handle_direct_messages env ;;
  when (is_midnight env) (update (set_post_count 0)) ;;
  sleep 60.

(** The post step is due and the quota allows it. *)
Definition will_post (env : Env) (b : Bot) : bool :=
  (current_time env - last_post_time b >=? auto_post_interval b)
  && (post_count b <? max_daily_posts b).

(** The bot after a scheduled post at [current_time]. *)
Definition posted (env : Env) (b : Bot) : Bot :=
  set_post_count (post_count b + 1) (set_last_post_time (current_time env) b).

(** *** The effect of an iteration in closed form

What an iteration appends to the trace and what it makes of the bot, as
functions of the environment and of the bot at its start; the lemmas
[run_forever_iteration_closed] and [main_loop_closed] relate them to the
loop. *)

Definition after_post_events (env : Env) (b : Bot) : list Event :=
  monitor_events env (hashtags_to_monitor b)
  ++ EvHandleDMs
     :: match dm_outcome env with
        | Some e => [EvPrint (MsgMainLoopError e); EvSleep 300]
        | None => [EvSleep 60]
        end.

Definition after_post_bot (env : Env) (b : Bot) : Bot :=
  match dm_outcome env with
  | Some _ => b
  | None => if is_midnight env then set_post_count 0 b else b
  end.

Definition iteration_events (env : Env) (b : Bot) : list Event :=
  if will_post env b then
    match post_outcome env with
    | Some e => [EvCreatePost; EvPrint (MsgMainLoopError e); EvSleep 300]
    | None =>
        EvCreatePost
        :: EvPrint (MsgAutoPostComplete (post_count b + 1) (max_daily_posts b))
        :: after_post_events env (posted env b)
    end
  else after_post_events env b.

Definition iteration_bot (env : Env) (b : Bot) : Bot :=
  if will_post env b then
    match post_outcome env with
    | Some _ => b
    | None => after_post_bot env (posted env b)
    end
  else after_post_bot env b.

Fixpoint loop_events (envs : list Env) (b : Bot) : list Event :=
  match envs with
  | [] => []
  | env :: rest =>
      if is_running b
      then iteration_events env b ++ loop_events rest (iteration_bot env b)
      else []
  end.

Fixpoint loop_bot (envs : list Env) (b : Bot) : Bot :=
  match envs with
  | [] => b
  | env :: rest => if is_running b then loop_bot rest (iteration_bot env b) else b
  end.

(** The iterations a trace shows: each one ends in exactly one sleep. *)
Definition is_sleep (ev : Event) : bool :=
  match ev with EvSleep _ => true | _ => false end.

Definition iterations (tr : list Event) : nat := List.length (List.filter is_sleep tr).

(** The actions of an iteration in which nothing raises, in the order of
the source: the scheduled post when it is due, the hashtags in the order
of the list, the direct messages. *)
Definition actions_in_order (env : Env) (b : Bot) : list Event :=
  (if will_post env b then [EvCreatePost] else [])
  ++ List.map EvMonitorHashtag (hashtags_to_monitor b)
  ++ [EvHandleDMs].

(** An environment in which nothing raises, read off a clock that
    shows [t] seconds since the epoch, in a time zone without offset. *)
Definition calm_at (t : Z) : Env :=
  let local := mkDateTime ((t mod 86400) / 3600) ((t mod 3600) / 60) in
  mkEnv (secs hz t) None (fun _ => None) None None local local.

End Clocked.

(** *** Concrete bots and environments for the examples *)

(** A bot constructed at the epoch, on a clock that counts whole seconds,
with nothing loaded into the DM store, and running. *)
Definition example_bot : Bot := set_is_running true (init 1 0 ∅).

Definition example_start : State := mkState example_bot [].

(** The bot of the scenario: a quota of 2 posts and an interval of 0. *)
Definition scenario_start : State := mkState (configure 0 2 example_bot) [].

Definition boom : Exn := Exception (py "boom").

(** An iteration in which [handle_direct_messages] raises. *)
Definition dm_failure_at (t : Z) : Env :=
  let env := calm_at 1 t in
  mkEnv (current_time env) None (monitor_outcome env) (Some boom) None
        (now_first env) (now_second env).




(** *** The posts a trace shows as completed *)

Definition is_completed (ev : Event) : bool :=
  match ev with EvPrint (MsgAutoPostComplete _ _) => true | _ => false end.

Definition completed (tr : list Event) : nat := List.length (List.filter is_completed tr).

(** An iteration in which [create_scheduled_post] raises. *)
Definition post_failure_at (t : Z) : Env :=
  let env := calm_at 1 t in
  mkEnv (current_time env) (Some boom) (monitor_outcome env) None None
        (now_first env) (now_second env).

(** Events whose only action is the scheduled post and that never sleep
the 60 seconds of an iteration that ends normally. *)
Definition only_posts (events : list Event) : Prop :=
  Forall (fun ev => ev = EvCreatePost) (actions events)
  /\ ~ In (EvSleep 60) events.

Definition attribute_error : Exn :=
  Exception (py "'MastodonBot' object has no attribute 'dm_settings'").

Definition zero_division : Exn := Exception (py "float modulo").

End Scheduler.

(** ** DM context store *)

Module DMStore.

(** The backing file [dm_context.json]: missing, or the list of the
    ids replied to. *)
Definition File : Type := option (list pystr).

(** Modelled from the spec: [_load_dm_context] is called by [__init__]
    but is not in the source file.  [load()] gives the set of ids of the
    file, and the empty set, not an error, when the file is missing. *)
Definition load (f : File) : Exn + gset pystr :=
  match f with
  | None => inr ∅
  | Some ids => inr (list_to_set ids)
  end.

(** Modelled from the spec: [has(id)] of the store, not in the source
    file. *)
Definition has (id : pystr) (replied : gset pystr) : bool :=
  bool_decide (id ∈ replied).

(** The store of a running process: the set in memory and the file. *)
Record Store : Type := mkStore {
  replied : gset pystr;
  file : File
}.

(** Modelled from the spec: [record(id)] of the store, not in the source
    file: it adds the id to the set and persists the set. *)
Definition record (id : pystr) (st : Store) : Store :=
  let replied' := {[ id ]} ∪ replied st in
  mkStore replied' (Some (elements replied')).

(** Modelled from the spec: the scan of [handle_direct_messages], not in
    the source file: each incoming message whose id is not in the set is
    replied to and then recorded.  The result lists the ids replied to. *)
Fixpoint scan (incoming : list pystr) (st : Store) : list pystr * Store :=
  match incoming with
  | [] => ([], st)
  | id :: rest =>
      if has id (replied st)
      then scan rest st
      else let (sent, st') := scan rest (record id st) in (id :: sent, st')
  end.

(** Modelled from the spec: a process start, which loads the set from the
    file that the previous process left. *)
Definition start (f : File) : Exn + Store :=
  match load f with
  | inl e => inl e
  | inr ids => inr (mkStore ids f)
  end.

(** How often an id occurs in the persisted file. *)
Definition occurrences (id : pystr) (f : File) : nat :=
  match f with
  | None => 0%nat
  | Some ids => List.length (List.filter (fun x => bool_decide (x = id)) ids)
  end.

End DMStore.

(** ** Hashtag monitoring in full: [monitor_hashtag]

The body of [monitor_hashtag] with the rate limiter and the response
generator of the source in place; [search_hashtag] and [reply_to_post]
are called but not defined in the source file and are parameters, as is
[random.random]. *)

Module Monitor.

(** A post as [search_hashtag] yields it: [post['id']], [post['content']]. *)
Record Post : Type := mkPost { post_id : pystr; content : pystr }.

Inductive Message : Type :=
| MsgReplied (hashtag : string)
| MsgError (hashtag : string) (e : Exn).

Inductive Event : Type :=
| EvSearch (hashtag : string) (limit : Z)
| EvReply (id : pystr) (response : option pystr)
| EvPrint (m : Message)
| EvSleep (seconds : Z).

(** The state a call threads: the clock and the bot of the rate limiter,
the state of the response generator, the trace, and how many calls were
made so far to [search_hashtag], [random.random] and [reply_to_post]. *)
Record State (Image : Type) : Type := mkState {
  limiter : RateLimiter.World;
  generator : Generator.State Image;
  trace : list Event;
  searches : nat;
  draws : nat;
  replies : nat
}.
Arguments mkState {Image}.
Arguments limiter {Image}.
Arguments generator {Image}.
Arguments trace {Image}.
Arguments searches {Image}.
Arguments draws {Image}.
Arguments replies {Image}.

(** [random.random()] returns a float [k / 2^53] with [0 <= k < 2^53]; the
double nearest to 0.3 is [5404319552844595 / 2^54]; so [k / 2^53 < 0.3]
exactly when [2 * k < 5404319552844595]. *)
Definition below_0_3 (k : Z) : bool := 2 * k <? 5404319552844595.

Section WithServices.

Variable hz : positive.
Context {Image Status : Type}.
Variable _clean_html : pystr -> pystr.
Variable _get_media_attachments : Status -> list Generator.Media.
Variable _download_image : pystr -> option Image.
Variable service : nat -> Generator.Request Image -> Exn + pystr.
Variable search_hashtag : nat -> string -> Z -> Exn + list Post.
Variable random_random : nat -> Z.
Variable reply_to_post : nat -> pystr -> option pystr -> option Exn.

Local Abbreviation St := (State Image).

Definition emit (ev : Event) : M St unit :=
  modify (fun s =>
            mkState (limiter s) (generator s) (trace s ++ [ev])
                    (searches s) (draws s) (replies s)).

Definition print (m : Message) : M St unit := emit (EvPrint m).

(** Time that passes for the whole coroutine passes on the limiter's
clock. *)
Fixpoint pass_time (seconds : list Z) (w : RateLimiter.World) : RateLimiter.World :=
  match seconds with
  | [] => w
  | d :: rest => pass_time rest (snd (RateLimiter.asyncio_sleep (secs hz d) w))
  end.

Definition asyncio_sleep (seconds : Z) : M St unit :=
  fun s =>
    (inr tt,
     mkState (pass_time [seconds] (limiter s)) (generator s)
             (trace s ++ [EvSleep seconds]) (searches s) (draws s) (replies s)).

(** [await self._handle_rate_limit()]. *)
Definition _handle_rate_limit : M St unit :=
  fun s =>
    let (result, w) := RateLimiter._handle_rate_limit hz (limiter s) in
    (result,
     mkState w (generator s) (trace s) (searches s) (draws s) (replies s)).

(** [await self.search_hashtag(hashtag, limit=5)]. *)
Definition search (hashtag : string) (limit : Z) : M St (list Post) :=
  fun s =>
    (search_hashtag (searches s) hashtag limit,
     mkState (limiter s) (generator s) (trace s ++ [EvSearch hashtag limit])
             (S (searches s)) (draws s) (replies s)).

(** [random.random()]. *)
Definition random : M St Z :=
  fun s =>
    (inr (random_random (draws s)),
     mkState (limiter s) (generator s) (trace s) (searches s) (S (draws s)) (replies s)).

(** [await self.generate_entertainment_response(post['content'])]: no
status, the default number of attempts; the seconds the generator slept
pass on the clock. *)
Definition generate_response (text : pystr) : M St (option pystr) :=
  fun s =>
    let (result, g) :=
      Generator.generate_entertainment_response
        _clean_html _get_media_attachments _download_image service
        text None Generator.default_max_retries (generator s) in
    let slept :=
      Generator.sleeps
        (skipn (List.length (Generator.trace (generator s))) (Generator.trace g)) in
    (result,
     mkState (pass_time slept (limiter s)) g (trace s)
             (searches s) (draws s) (replies s)).

(** [await self.reply_to_post(post['id'], response)]. *)
Definition reply (id : pystr) (response : option pystr) : M St unit :=
  fun s =>
    (match reply_to_post (replies s) id response with
     | Some e => inl e
     | None => inr tt
     end,
     mkState (limiter s) (generator s) (trace s ++ [EvReply id response])
             (searches s) (draws s) (S (replies s))).

(** [for post in posts: if random.random() < 0.3: ...]. *)
Fixpoint reply_to_some (hashtag : string) (posts : list Post) : M St unit :=
  match posts with
  | [] => ret tt
  | post :: rest =>
      r <- random ;;
      (if below_0_3 r then
         response <- generate_response (content post) ;;
         reply (post_id post) response ;;
         print (MsgReplied hashtag) ;;
         asyncio_sleep 30
       else ret tt) ;;
      reply_to_some hashtag rest
  end.

Definition monitor_hashtag (hashtag : string) : M St unit :=
  try_except
    (_handle_rate_limit ;;
     posts <- search hashtag 5 ;;
     reply_to_some hashtag posts)
    (fun e => print (MsgError hashtag e)).

(** *** Reading a trace *)

(** The posts the draws pick, the first post with draw number [draw]. *)
Fixpoint chosen (posts : list Post) (draw : nat) : list Post :=
  match posts with
  | [] => []
  | post :: rest =>
      if below_0_3 (random_random draw)
      then post :: chosen rest (S draw)
      else chosen rest (S draw)
  end.

End WithServices.

(** The ids a trace shows a reply to, in order. *)
Definition replied (tr : list Event) : list pystr :=
  flat_map (fun ev => match ev with EvReply id _ => [id] | _ => [] end) tr.

(** The replies a trace shows as sent ("Replied to post in #..."). *)
Definition confirmed (tr : list Event) : nat :=
  List.length
    (List.filter (fun ev => match ev with EvPrint (MsgReplied _) => true | _ => false end) tr).

(** The text of a reply is a string of at most 240 code points without
white space at its ends. *)
Definition reply_in_shape (ev : Event) : Prop :=
  match ev with
  | EvReply _ response =>
      exists text, response = Some text /\ len text <= 240 /\ strip text = text
  | _ => True
  end.

(** *** A concrete world for the examples *)

Definition two_posts : list Post :=
  [mkPost (py "101") (py "<p>first</p>"); mkPost (py "102") (py "<p>second</p>")].

Definition found_two (_ : nat) (_ : string) (_ : Z) : Exn + list Post := inr two_posts.

Definition search_down (_ : nat) (_ : string) (_ : Z) : Exn + list Post :=
  inl (Exception (py "503")).

Definition always_low (_ : nat) : Z := 0.

Definition reply_refused (_ : nat) (_ : pystr) (_ : option pystr) : option Exn :=
  Some (Exception (py "403")).

Definition reply_accepted (_ : nat) (_ : pystr) (_ : option pystr) : option Exn := None.

Definition fresh : State unit :=
  mkState (RateLimiter.mkWorld 1000 [] (init 1 1000 ∅)) Generator.fresh [] 0 0 0.

Definition example_monitor
    (search_hashtag : nat -> string -> Z -> Exn + list Post)
    (reply_to_post : nat -> pystr -> option pystr -> option Exn)
  : (Exn + unit) * State unit :=
  monitor_hashtag 1 Generator.plain Generator.no_media Generator.no_image
    Generator.failing_once search_hashtag always_low reply_to_post "tech" fresh.

End Monitor.

(** * Properties *)

(** ** Strings *)

Module PyStrFacts.

Lemma length_lstrip (s : pystr) : (List.length (lstrip s) <= List.length s)%nat.
Proof.
  induction s as [|c rest IH]; simpl; [lia|].
  destruct (isspace c); simpl; lia.
Qed.

Lemma length_rstrip (s : pystr) : (List.length (rstrip s) <= List.length s)%nat.
Proof.
  unfold rstrip. rewrite length_rev.
  pose proof (length_lstrip (rev s)) as H. rewrite length_rev in H. exact H.
Qed.

Lemma length_strip (s : pystr) : (List.length (strip s) <= List.length s)%nat.
Proof.
  unfold strip.
  pose proof (length_rstrip (lstrip s)). pose proof (length_lstrip s). lia.
Qed.

Lemma len_truncated (s : pystr) : len (strip (slice_to 240 s)) <= 240.
Proof.
  unfold len, slice_to.
  pose proof (length_strip (firstn 240 s)) as H.
  pose proof (firstn_le_length 240 s). lia.
Qed.

(** The first and the last code point of a stripped string are not
    white space. *)
Lemma lstrip_head (s : pystr) c rest : lstrip s = c :: rest -> isspace c = false.
Proof.
  induction s as [|d s IH]; simpl; [discriminate|].
  destruct (isspace d) eqn:E; [exact IH|].
  intros H. injection H as -> _. exact E.
Qed.

Lemma lstrip_idempotent (s : pystr) : lstrip (lstrip s) = lstrip s.
Proof.
  induction s as [|c rest IH]; [reflexivity|].
  cbn [lstrip]. destruct (isspace c) eqn:E; [exact IH|].
  cbn [lstrip]. rewrite E. reflexivity.
Qed.

(** [lstrip] cuts a prefix off. *)
Lemma lstrip_suffix (s : pystr) : exists prefix, s = prefix ++ lstrip s.
Proof.
  induction s as [|c rest [prefix IH]]; [exists []; reflexivity|].
  cbn [lstrip]. destruct (isspace c).
  - exists (c :: prefix). cbn [app]. f_equal. exact IH.
  - exists []. reflexivity.
Qed.

(** [rstrip] cuts a suffix off. *)
Lemma rstrip_prefix (s : pystr) : exists suffix, s = rstrip s ++ suffix.
Proof.
  unfold rstrip. destruct (lstrip_suffix (rev s)) as [prefix H].
  exists (rev prefix). rewrite <- rev_app_distr, <- H, rev_involutive. reflexivity.
Qed.

Lemma rstrip_idempotent (s : pystr) : rstrip (rstrip s) = rstrip s.
Proof. unfold rstrip. rewrite rev_involutive, lstrip_idempotent. reflexivity. Qed.

(** Stripping the right end keeps the left end stripped. *)
Lemma lstrip_rstrip (s : pystr) : lstrip s = s -> lstrip (rstrip s) = rstrip s.
Proof.
  intros Hfixed. destruct (rstrip_prefix s) as [suffix Hs].
  destruct (rstrip s) as [|c rest]; [reflexivity|].
  cbn [lstrip]. destruct (isspace c) eqn:E; [|reflexivity].
  exfalso. rewrite Hs in Hfixed. cbn [app lstrip] in Hfixed. rewrite E in Hfixed.
  pose proof (length_lstrip (rest ++ suffix)) as Hlen.
  rewrite Hfixed in Hlen. cbn [List.length] in Hlen. lia.
Qed.

Lemma strip_idempotent (s : pystr) : strip (strip s) = strip s.
Proof.
  unfold strip.
  rewrite (lstrip_rstrip (lstrip s) (lstrip_idempotent s)).
  apply rstrip_idempotent.
Qed.

Lemma lstrip_blank (s : pystr) : Forall (fun c => isspace c = true) s -> lstrip s = [].
Proof.
  induction 1 as [|c rest Hc Hrest IH]; [reflexivity|].
  cbn [lstrip]. rewrite Hc. exact IH.
Qed.

Lemma strip_blank (s : pystr) : Forall (fun c => isspace c = true) s -> strip s = [].
Proof. intros H. unfold strip. rewrite (lstrip_blank s H). reflexivity. Qed.

End PyStrFacts.

(** ** Response generator *)

Module GeneratorFacts.
Import Generator.

Section WithServices.

Context {Image Status : Type}.
Variable _clean_html : pystr -> pystr.
Variable _get_media_attachments : Status -> list Media.
Variable _download_image : pystr -> option Image.
Variable service : nat -> Request Image -> Exn + pystr.

Local Abbreviation St := (State Image).
Local Abbreviation loop := (attempt_loop service).

Lemma sleeps_app (a b : list (Event Image)) : sleeps (a ++ b) = sleeps a ++ sleeps b.
Proof.
  induction a as [|ev a IH]; simpl; [reflexivity|].
  destruct ev; simpl; rewrite IH; reflexivity.
Qed.

(** Fetching the attachments never calls the generation service and
    only adds the downloads to the trace. *)
Lemma collect_images_run (media : list Media) (s : St) :
  collect_images _download_image media s
  = (inr (fetched_images _download_image media),
     mkState (trace s ++ List.map (fun m => EvDownload (url m)) media) (calls s)).
Proof.
  revert s. induction media as [|m rest IH]; intros [tr c]; simpl.
  - unfold ret. rewrite app_nil_r. reflexivity.
  - unfold bind, download_image, emit, modify, bind, ret. simpl.
    rewrite IH. simpl. rewrite <- app_assoc. simpl.
    destruct (_download_image (url m)); reflexivity.
Qed.

(** One pass through the loop body, by the outcome of the service. *)
Lemma attempt_loop_cons req max_retries attempt rest (s : St) :
  loop req max_retries (attempt :: rest) s
  = match service (calls s) req with
    | inr text =>
        (inr (Some (strip (slice_to 240 text))),
         mkState (trace s ++ [EvSleep 5; EvGenerate req]) (S (calls s)))
    | inl e =>
        if attempt <? max_retries - 1 then
          loop req max_retries rest
            (mkState (trace s ++ [EvSleep 5; EvGenerate req;
                                  EvPrint (MsgRetry (attempt + 1) max_retries (10 * (attempt + 1)));
                                  EvSleep (10 * (attempt + 1))])
                     (S (calls s)))
        else
          (inr (Some fallback),
           mkState (trace s ++ [EvSleep 5; EvGenerate req; EvPrint (MsgError e)])
                   (S (calls s)))
    end.
Proof.
  destruct s as [tr c]. simpl.
  unfold bind at 1. unfold attempt_body, try_except.
  unfold bind, sleep, print, emit, modify, generate_content, ret. simpl.
  destruct (service c req) as [e|text]; simpl.
  - destruct (attempt <? max_retries - 1); simpl;
      rewrite <- !app_assoc; reflexivity.
  - rewrite <- app_assoc. reflexivity.
Qed.

(** Attempts [k .. k+j-1] fail and are retried, attempt [k+j] succeeds. *)
Lemma loop_success req max_retries text rest :
  forall (j k : nat) (s : St),
    (forall i, (i < j)%nat -> exists e, service (calls s + i)%nat req = inl e) ->
    service (calls s + j)%nat req = inr text ->
    Z.of_nat (k + j) < max_retries ->
    loop req max_retries (List.map Z.of_nat (seq k (S j)) ++ rest) s
    = (inr (Some (strip (slice_to 240 text))),
       mkState (trace s ++ flat_map (retry_events req max_retries) (seq k j)
                        ++ [EvSleep 5; EvGenerate req])
               (calls s + S j)).
Proof.
  induction j as [|j IH]; intros k s Hfail Hok Hlt.
  - change (List.map Z.of_nat (seq k 1) ++ rest) with (Z.of_nat k :: rest).
    rewrite attempt_loop_cons.
    rewrite Nat.add_0_r in Hok. rewrite Hok.
    rewrite Nat.add_1_r. reflexivity.
  - change (List.map Z.of_nat (seq k (S (S j))) ++ rest)
      with (Z.of_nat k :: (List.map Z.of_nat (seq (S k) (S j)) ++ rest)).
    rewrite attempt_loop_cons.
    destruct (Hfail 0%nat ltac:(lia)) as [e He].
    rewrite Nat.add_0_r in He. rewrite He.
    replace (Z.of_nat k <? max_retries - 1) with true
      by (symmetry; apply Z.ltb_lt; lia).
    rewrite IH; simpl calls; simpl trace.
    + f_equal. f_equal; [|lia].
      simpl flat_map. unfold retry_events at 2.
      rewrite <- !app_assoc. reflexivity.
    + intros i Hi. destruct (Hfail (S i) ltac:(lia)) as [e' He'].
      exists e'. rewrite <- He'. f_equal. lia.
    + rewrite <- Hok. f_equal. lia.
    + lia.
Qed.

(** All of the attempts [k .. k+m] fail and [k+m] is the last one. *)
Lemma loop_all_fail req max_retries :
  forall (m k : nat) (s : St),
    (forall i, (i < S m)%nat -> exists e, service (calls s + i)%nat req = inl e) ->
    max_retries = Z.of_nat (k + S m) ->
    exists e,
      service (calls s + m)%nat req = inl e /\
      loop req max_retries (List.map Z.of_nat (seq k (S m))) s
      = (inr (Some fallback),
         mkState (trace s ++ flat_map (retry_events req max_retries) (seq k m)
                          ++ [EvSleep 5; EvGenerate req; EvPrint (MsgError e)])
                 (calls s + S m)).
Proof.
  induction m as [|m IH]; intros k s Hfail Hmax.
  - destruct (Hfail 0%nat ltac:(lia)) as [e He]. exists e. split; [exact He|].
    change (List.map Z.of_nat (seq k 1)) with [Z.of_nat k].
    rewrite attempt_loop_cons.
    rewrite Nat.add_0_r in He. rewrite He.
    replace (Z.of_nat k <? max_retries - 1) with false
      by (symmetry; apply Z.ltb_ge; lia).
    rewrite Nat.add_1_r. reflexivity.
  - destruct (Hfail 0%nat ltac:(lia)) as [e0 He0].
    rewrite Nat.add_0_r in He0.
    specialize (IH (S k)
                  (mkState (trace s ++ retry_events req max_retries k) (S (calls s)))).
    destruct IH as [e [He Hrun]].
    + intros i Hi. destruct (Hfail (S i) ltac:(lia)) as [e' He'].
      exists e'. rewrite <- He'. simpl. f_equal. lia.
    + lia.
    + exists e. split.
      * rewrite <- He. simpl. f_equal. lia.
      * change (List.map Z.of_nat (seq k (S (S m))))
          with (Z.of_nat k :: List.map Z.of_nat (seq (S k) (S m))).
        rewrite attempt_loop_cons. rewrite He0.
        replace (Z.of_nat k <? max_retries - 1) with true
          by (symmetry; apply Z.ltb_lt; lia).
        unfold retry_events at 1 in Hrun. rewrite Hrun. simpl calls. simpl trace.
        f_equal. f_equal; [|lia].
        simpl flat_map. unfold retry_events at 3.
        rewrite <- !app_assoc. reflexivity.
Qed.

Lemma range_nonpositive (n : Z) : n <= 0 -> range n = [].
Proof. intros H. unfold range. replace (Z.to_nat n) with 0%nat by lia. reflexivity. Qed.

(** The call is the attachment downloads followed by the attempt loop. *)
Lemma generate_unfold post_text status max_retries (s : St) :
  generate_entertainment_response
    _clean_html _get_media_attachments _download_image service
    post_text status max_retries s
  = loop (request_of _clean_html _get_media_attachments _download_image post_text status)
         max_retries (range max_retries)
         (mkState (trace s ++ downloads_of _get_media_attachments status) (calls s)).
Proof.
  unfold generate_entertainment_response, request_of, images_of, downloads_of.
  unfold bind at 1. destruct status as [st|].
  - rewrite collect_images_run. reflexivity.
  - unfold ret. rewrite app_nil_r. destruct s; reflexivity.
Qed.

(** With at least one attempt left and the last one numbered
    [max_retries - 1], the loop returns a string of at most 240 code
    points and raises nothing. *)
Lemma loop_total req max_retries :
  forall (m k : nat) (s : St),
    max_retries = Z.of_nat (k + S m) ->
    exists text s',
      loop req max_retries (List.map Z.of_nat (seq k (S m))) s = (inr (Some text), s')
      /\ len text <= 240.
Proof.
  assert (Hfb : len fallback <= 240) by (vm_compute; discriminate).
  induction m as [|m IH]; intros k s Hmax.
  - change (List.map Z.of_nat (seq k 1)) with [Z.of_nat k].
    rewrite attempt_loop_cons.
    destruct (service (calls s) req) as [e|text].
    + replace (Z.of_nat k <? max_retries - 1) with false
        by (symmetry; apply Z.ltb_ge; lia).
      eauto.
    + eauto using PyStrFacts.len_truncated.
  - change (List.map Z.of_nat (seq k (S (S m))))
      with (Z.of_nat k :: List.map Z.of_nat (seq (S k) (S m))).
    rewrite attempt_loop_cons.
    destruct (service (calls s) req) as [e|text].
    + replace (Z.of_nat k <? max_retries - 1) with true
        by (symmetry; apply Z.ltb_lt; lia).
      apply IH. lia.
    + eauto using PyStrFacts.len_truncated.
Qed.

(** C1: with the default of three attempts, for every post text, every
optional source post and every sequence of outcomes of the generation
service, the call raises nothing and returns a string of at most 240 code
points; it is the fallback string when all three attempts fail, and the
text of the first successful attempt, cut to 240 code points and then
stripped of surrounding white space, otherwise. *)
Theorem C1_generate_returns_bounded_text post_text status (s : St) :
  let req := request_of _clean_html _get_media_attachments _download_image post_text status in
  let outcome i := service (calls s + i)%nat req in
  exists text s',
    generate_entertainment_response
      _clean_html _get_media_attachments _download_image service
      post_text status default_max_retries s = (inr (Some text), s')
    /\ len text <= 240
    /\ ((forall i, (i < 3)%nat -> exists e, outcome i = inl e) -> text = fallback)
    /\ (forall j response,
          (j < 3)%nat ->
          (forall i, (i < j)%nat -> exists e, outcome i = inl e) ->
          outcome j = inr response ->
          text = strip (slice_to 240 response)).
Proof.
  intros req outcome. rewrite generate_unfold. fold req.
  set (s0 := mkState (trace s ++ downloads_of _get_media_attachments status) (calls s)).
  change (range default_max_retries) with (List.map Z.of_nat (seq 0 3)).
  destruct (loop_total req default_max_retries 2 0 s0 eq_refl) as (text & s' & Hrun & Hlen).
  exists text, s'. split; [exact Hrun|]. split; [exact Hlen|]. split.
  - intros Hfail.
    destruct (loop_all_fail req default_max_retries 2 0 s0 Hfail eq_refl) as (e & _ & Hrun').
    rewrite Hrun in Hrun'. congruence.
  - intros j response Hj Hfail Hok.
    pose proof (loop_success req default_max_retries response
                  (List.map Z.of_nat (seq (S j) (2 - j))) j 0 s0 Hfail Hok) as Hrun'.
    replace (List.map Z.of_nat (seq 0 (S j)) ++ List.map Z.of_nat (seq (S j) (2 - j)))
      with (List.map Z.of_nat (seq 0 3)) in Hrun'.
    + rewrite Hrun in Hrun'. unfold default_max_retries in Hrun'.
      specialize (Hrun' ltac:(lia)). congruence.
    + rewrite <- List.map_app, <- seq_app. do 2 f_equal. lia.
Qed.

(** C6, as the code has it: the 5-second wait comes before every attempt,
not only before the first, and a failed attempt that is not the last is
followed by a wait of 10 times its number; so when attempt [j] (counted
from 0) is the last one made, the waits of the call are 5, 10, 5, 20, ...,
5, and between attempt number [k] and the next one the bot waits
[10 * k + 5] seconds. *)
Theorem C6_waits_before_every_attempt post_text status max_retries (s : St) (j : nat) :
  let req := request_of _clean_html _get_media_attachments _download_image post_text status in
  let outcome i := service (calls s + i)%nat req in
  let s' := snd (generate_entertainment_response
                   _clean_html _get_media_attachments _download_image service
                   post_text status max_retries s) in
  Z.of_nat j < max_retries ->
  (forall i, (i < j)%nat -> exists e, outcome i = inl e) ->
  ((exists response, outcome j = inr response)
   \/ (Z.of_nat j = max_retries - 1 /\ exists e, outcome j = inl e)) ->
  sleeps (trace s')
  = sleeps (trace s)
    ++ flat_map (fun k => [5; 10 * (Z.of_nat k + 1)]) (seq 0 j) ++ [5].
Proof.
  intros req outcome s' Hj Hfail Hlast. subst s'.
  rewrite generate_unfold. fold req.
  set (s0 := mkState (trace s ++ downloads_of _get_media_attachments status) (calls s)).
  assert (Hdl : sleeps (trace s0) = sleeps (trace s)).
  { simpl. rewrite sleeps_app. unfold downloads_of.
    destruct status as [st|]; [|apply app_nil_r].
    induction (_get_media_attachments st) as [|m l IH]; [apply app_nil_r|exact IH]. }
  assert (Hretry : forall n k,
             sleeps (flat_map (retry_events req max_retries) (seq k n))
             = flat_map (fun k => [5; 10 * (Z.of_nat k + 1)]) (seq k n)).
  { induction n as [|n IH]; intros k; [reflexivity|].
    simpl. rewrite IH. reflexivity. }
  assert (Hrange : range max_retries
                   = List.map Z.of_nat (seq 0 (S j))
                     ++ List.map Z.of_nat (seq (S j) (Z.to_nat max_retries - S j))).
  { unfold range. rewrite <- List.map_app, <- seq_app. do 2 f_equal. lia. }
  assert (Hcalls : calls s = calls s0) by reflexivity.
  unfold outcome in Hfail, Hlast. rewrite Hcalls in Hfail, Hlast.
  clearbody s0. rewrite <- Hdl.
  destruct Hlast as [[response Hok] | [Hend [e He]]].
  - rewrite Hrange.
    rewrite (loop_success req max_retries response _ j 0 s0 Hfail Hok) by lia.
    cbn [snd trace]. rewrite !sleeps_app, Hretry. reflexivity.
  - replace (Z.to_nat max_retries - S j)%nat with 0%nat in Hrange by lia.
    rewrite Hrange, app_nil_r.
    destruct (loop_all_fail req max_retries j 0 s0) as (e' & _ & Hrun).
    + intros i Hi. destruct (Nat.eq_dec i j) as [->|Hne]; [eauto|apply Hfail; lia].
    + lia.
    + rewrite Hrun. cbn [snd trace]. rewrite !sleeps_app, Hretry. reflexivity.
Qed.

(** C9: [max_retries] decides whether a string comes back: when it is 0
or negative the loop body never runs, nothing is asked of the service and
the call returns [None]; when it is at least 1 the call returns a
string. *)
Theorem C9_nonpositive_max_retries_returns_None post_text status max_retries (s : St) :
  let run := generate_entertainment_response
               _clean_html _get_media_attachments _download_image service
               post_text status max_retries s in
  (max_retries <= 0 -> fst run = inr None /\ calls (snd run) = calls s)
  /\ (1 <= max_retries -> exists text, fst run = inr (Some text)).
Proof.
  intros run. subst run. rewrite generate_unfold. split.
  - intros Hle. rewrite range_nonpositive by exact Hle. split; reflexivity.
  - intros Hge. unfold range.
    replace (Z.to_nat max_retries) with (S (Z.to_nat max_retries - 1)) by lia.
    destruct (loop_total
                (request_of _clean_html _get_media_attachments _download_image post_text status)
                max_retries (Z.to_nat max_retries - 1) 0
                (mkState (trace s ++ downloads_of _get_media_attachments status) (calls s)))
      as (text & s' & Hrun & _); [lia|].
    rewrite Hrun. eauto.
Qed.

End WithServices.

(** A run in which the first attempt fails and the second succeeds: the
waits are 5, 10, 5. *)
Lemma C6_waits_witness :
  sleeps (trace (snd (example_run failing_once 3))) = [5; 10; 5].
Proof.
  apply (C6_waits_before_every_attempt plain no_media no_image failing_once
           (py "hello") None 3 fresh 1).
  - reflexivity.
  - intros i Hi. assert (i = 0)%nat as -> by lia. exists timeout. reflexivity.
  - left. eexists. reflexivity.
Defined.

(** C6, as stated, fails: when all three attempts fail, the bot sleeps
5 seconds three times, once before each attempt, not only before the first
one, and the waits are not 5, 10, 20. *)
Lemma C6_counterexample :
  sleeps (trace (snd (example_run always_failing 3))) = [5; 10; 5; 20; 5]
  /\ sleeps (trace (snd (example_run always_failing 3))) <> [5; 10; 20].
Proof. split; [reflexivity|discriminate]. Qed.

(** With no attempt allowed the call returns [None]; with one it returns
the fallback string when the service fails. *)
Lemma C9_witness :
  fst (example_run always_failing 0) = inr None
  /\ fst (example_run always_failing 1) = inr (Some fallback).
Proof.
  split.
  - apply (C9_nonpositive_max_retries_returns_None plain no_media no_image always_failing
             (py "hello") None 0 fresh). lia.
  - destruct (C9_nonpositive_max_retries_returns_None plain no_media no_image always_failing
                (py "hello") None 1 fresh) as [_ H].
    destruct (H ltac:(lia)) as [text Htext]. reflexivity.
Defined.

Section MoreOnTheGenerator.

Context {Image Status : Type}.
Variable _clean_html : pystr -> pystr.
Variable _get_media_attachments : Status -> list Media.
Variable _download_image : pystr -> option Image.
Variable service : nat -> Request Image -> Exn + pystr.

Local Abbreviation St := (State Image).
Local Abbreviation loop := (attempt_loop service).
Local Abbreviation generate :=
  (generate_entertainment_response
     _clean_html _get_media_attachments _download_image service).
Local Abbreviation request :=
  (request_of _clean_html _get_media_attachments _download_image).

Lemma generations_app (a b : list (Event Image)) :
  generations (a ++ b) = (generations a + generations b)%nat.
Proof. unfold generations. rewrite List.filter_app, length_app. reflexivity. Qed.

Lemma downloaded_app (a b : list (Event Image)) :
  downloaded (a ++ b) = downloaded a ++ downloaded b.
Proof. unfold downloaded. apply flat_map_app. Qed.

Lemma total_sleep_app (a b : list (Event Image)) :
  total_sleep (a ++ b) = total_sleep a + total_sleep b.
Proof.
  unfold total_sleep. rewrite sleeps_app.
  induction (sleeps a) as [|d rest IH]; cbn [app fold_right]; lia.
Qed.

Lemma strip_fallback : strip fallback = fallback /\ len fallback <= 240.
Proof. split; [vm_compute; reflexivity|vm_compute; discriminate]. Qed.

(** What the attempt loop does for any list of attempts: it raises
nothing, calls the service at most once per attempt, downloads nothing,
and what it returns is stripped and at most 240 code points long. *)
Lemma loop_summary req max_retries (attempts : list Z) :
  forall s : St,
    exists (value : option pystr) (events : list (Event Image)) (n : nat),
      loop req max_retries attempts s
      = (inr value, mkState (trace s ++ events) (calls s + n))
      /\ (n <= List.length attempts)%nat
      /\ generations events = n
      /\ downloaded events = []
      /\ (forall text, value = Some text -> strip text = text /\ len text <= 240).
Proof.
  induction attempts as [|attempt rest IH]; intros s.
  - exists None, [], 0%nat. cbn [attempt_loop]. unfold ret.
    rewrite app_nil_r, Nat.add_0_r. destruct s.
    split; [reflexivity|]. split; [cbn; lia|]. split; [reflexivity|].
    split; [reflexivity|]. discriminate.
  - rewrite attempt_loop_cons. destruct (service (calls s) req) as [e|text].
    + destruct (attempt <? max_retries - 1).
      * match goal with |- context [loop _ _ rest ?s1] => destruct (IH s1)
          as (value & events & n & Hrun & Hn & Hgen & Hdl & Hval) end.
        rewrite Hrun. cbn [trace calls].
        eexists value, (_ ++ events), (S n). rewrite <- app_assoc.
        split; [do 2 f_equal; lia|].
        rewrite generations_app, downloaded_app, Hgen, Hdl.
        split; [cbn [List.length]; lia|]. split; [reflexivity|].
        split; [reflexivity|exact Hval].
      * eexists (Some fallback), _, 1%nat. rewrite Nat.add_1_r.
        split; [reflexivity|]. split; [cbn [List.length]; lia|].
        split; [reflexivity|]. split; [reflexivity|].
        intros text [= <-]. apply strip_fallback.
    + eexists (Some _), _, 1%nat. rewrite Nat.add_1_r.
      split; [reflexivity|]. split; [cbn [List.length]; lia|].
      split; [reflexivity|]. split; [reflexivity|].
      intros t [= <-]. split.
      * apply PyStrFacts.strip_idempotent.
      * apply PyStrFacts.len_truncated.
Qed.

(** The result of the loop and the number of calls do not depend on the
trace so far. *)
Lemma loop_frame req max_retries (attempts : list Z) :
  forall (tr tr' : list (Event Image)) (c : nat),
    fst (loop req max_retries attempts (mkState tr c))
    = fst (loop req max_retries attempts (mkState tr' c))
    /\ calls (snd (loop req max_retries attempts (mkState tr c)))
       = calls (snd (loop req max_retries attempts (mkState tr' c))).
Proof.
  induction attempts as [|attempt rest IH]; intros tr tr' c; [split; reflexivity|].
  rewrite !attempt_loop_cons. cbn [calls trace].
  destruct (service c req); [destruct (attempt <? max_retries - 1)|];
    try (split; reflexivity).
  apply IH.
Qed.

(** With at least one attempt allowed a call returns a string, trimmed
and of at most 240 code points, and raises nothing. *)
Lemma generate_returns_trimmed post_text status max_retries (s : St) :
  1 <= max_retries ->
  exists text s',
    generate post_text status max_retries s = (inr (Some text), s')
    /\ strip text = text
    /\ len text <= 240.
Proof.
  intros Hge. rewrite generate_unfold.
  match goal with |- context [loop ?req _ _ ?s0] =>
    destruct (loop_summary req max_retries (range max_retries) s0)
      as (value & events & n & Hrun & _ & _ & _ & Hval);
    destruct (loop_total service req max_retries (Z.to_nat max_retries - 1) 0 s0)
      as (text & s' & Hrun' & _); [lia|]
  end.
  unfold range in Hrun.
  replace (Z.to_nat max_retries) with (S (Z.to_nat max_retries - 1)) in Hrun by lia.
  rewrite Hrun in Hrun'. injection Hrun' as -> _.
  unfold range. replace (Z.to_nat max_retries) with (S (Z.to_nat max_retries - 1)) by lia.
  rewrite Hrun. exists text. eexists. split; [reflexivity|]. apply Hval. reflexivity.
Qed.

(** The reply is trimmed: with at least one attempt allowed, the string
the call returns, the fallback included, has no white space at either
end, so stripping it again changes nothing. *)
Theorem reply_is_trimmed post_text status max_retries (s : St) :
  1 <= max_retries ->
  exists text,
    fst (generate post_text status max_retries s) = inr (Some text)
    /\ strip text = text
    /\ len text <= 240.
Proof.
  intros Hge. rewrite generate_unfold.
  match goal with |- context [loop ?req _ _ ?s0] =>
    destruct (loop_summary req max_retries (range max_retries) s0)
      as (value & events & n & Hrun & _ & _ & _ & Hval);
    destruct (loop_total service req max_retries (Z.to_nat max_retries - 1) 0 s0)
      as (text & s' & Hrun' & _); [lia|]
  end.
  unfold range in Hrun.
  replace (Z.to_nat max_retries) with (S (Z.to_nat max_retries - 1)) in Hrun by lia.
  rewrite Hrun in Hrun'. injection Hrun' as -> _.
  unfold range. replace (Z.to_nat max_retries) with (S (Z.to_nat max_retries - 1)) by lia.
  rewrite Hrun. exists text. split; [reflexivity|]. apply Hval. reflexivity.
Qed.

(** Every attachment is downloaded once, before the first call to the
generation service, and not again when an attempt is retried; the service
is called at most [max_retries] times. *)
Theorem downloads_once_and_calls_bounded post_text status max_retries (s : St) :
  exists (events : list (Event Image)) (n : nat),
    snd (generate post_text status max_retries s)
    = mkState (trace s ++ downloads_of _get_media_attachments status ++ events)
              (calls s + n)
    /\ (n <= Z.to_nat max_retries)%nat
    /\ generations events = n
    /\ downloaded events = []
    /\ downloaded (downloads_of _get_media_attachments status : list (Event Image))
       = match status with
         | Some st => List.map url (_get_media_attachments st)
         | None => []
         end.
Proof.
  rewrite generate_unfold.
  match goal with |- context [loop ?req _ _ ?s0] =>
    destruct (loop_summary req max_retries (range max_retries) s0)
      as (value & events & n & Hrun & Hn & Hgen & Hdl & _)
  end.
  rewrite Hrun. cbn [snd trace calls]. exists events, n.
  rewrite <- app_assoc. split; [reflexivity|].
  unfold range in Hn. rewrite length_map, length_seq in Hn.
  repeat split; try assumption.
  unfold downloads_of. destruct status as [st|]; [|reflexivity].
  induction (_get_media_attachments st) as [|m rest IH]; [reflexivity|].
  cbn [List.map downloaded flat_map app]. f_equal. exact IH.
Qed.

(** No minimum length: when the service answers and the first 240 code
points of the answer are all white space, the call returns the empty
string, not the fallback. *)
Theorem blank_response_gives_empty_reply post_text status max_retries (s : St) response :
  1 <= max_retries ->
  service (calls s) (request post_text status) = inr response ->
  Forall (fun c => isspace c = true) (slice_to 240 response) ->
  fst (generate post_text status max_retries s) = inr (Some []).
Proof.
  intros Hge Hok Hblank. rewrite generate_unfold.
  unfold range. replace (Z.to_nat max_retries) with (S (Z.to_nat max_retries - 1)) by lia.
  change (seq 0 (S (Z.to_nat max_retries - 1)))
    with (0%nat :: seq 1 (Z.to_nat max_retries - 1)).
  cbn [List.map]. rewrite attempt_loop_cons. cbn [calls]. rewrite Hok.
  cbn [fst]. rewrite (PyStrFacts.strip_blank _ Hblank). reflexivity.
Qed.

Lemma fetched_images_none (media : list Media) :
  Forall (fun m => _download_image (url m) = None) media ->
  fetched_images _download_image media = [].
Proof.
  induction 1 as [|m rest Hm Hrest IH]; [reflexivity|].
  cbn [fetched_images]. rewrite Hm. exact IH.
Qed.

(** A post whose attachments all fail to download is answered like a
post without attachments: the request is the text-only one, and the call
returns the same value after the same number of service calls. *)
Theorem failed_downloads_degrade_to_text_only post_text st max_retries (s : St) :
  Forall (fun m => _download_image (url m) = None) (_get_media_attachments st) ->
  request post_text (Some st)
  = TextOnly (build_prompt (Image:=Image) (_clean_html post_text) [])
  /\ fst (generate post_text (Some st) max_retries s)
     = fst (generate post_text None max_retries s)
  /\ calls (snd (generate post_text (Some st) max_retries s))
     = calls (snd (generate post_text None max_retries s)).
Proof.
  intros Hfail.
  assert (Hreq : request post_text (Some st) = request post_text None).
  { unfold request_of, images_of. rewrite (fetched_images_none _ Hfail). reflexivity. }
  split.
  - rewrite Hreq. reflexivity.
  - rewrite !generate_unfold, Hreq. apply loop_frame.
Qed.

Local Abbreviation attachments := (attachments_of _get_media_attachments).

Lemma image_parts_images (images : list (ImageData Image)) :
  images_in (image_parts images) = List.map image images.
Proof.
  induction images as [|d rest IH]; [reflexivity|].
  cbn [image_parts List.map].
  destruct (description d) as [[|c txt]|]; cbn [truthy images_in flat_map app];
    fold (images_in (image_parts rest)); rewrite IH; reflexivity.
Qed.

Lemma fetched_images_omap (media : list Media) :
  List.map image (fetched_images _download_image media)
  = omap (fun m => _download_image (url m)) media.
Proof.
  induction media as [|m rest IH]; [reflexivity|].
  cbn [fetched_images omap list_omap].
  destruct (_download_image (url m)); cbn [List.map image]; rewrite IH; reflexivity.
Qed.

(** The request carries exactly the images whose download succeeded, in
the order of the attachments, after the prompt: it is text-only when no
download succeeded, and multimodal, with temperature 0.7, top-p 0.8 and
top-k 40, otherwise. *)
Theorem request_carries_fetched_images post_text status :
  match request post_text status with
  | TextOnly _ => omap (fun m => _download_image (url m)) (attachments status) = []
  | Multimodal parts cfg =>
      exists prompt rest,
        parts = PText prompt :: rest
        /\ images_in rest = omap (fun m => _download_image (url m)) (attachments status)
        /\ images_in rest <> []
        /\ cfg = mkConfig 700 800 40
  end.
Proof.
  assert (Himg : List.map image (images_of _get_media_attachments _download_image status)
                 = omap (fun m => _download_image (url m)) (attachments status)).
  { destruct status as [st|]; [apply fetched_images_omap|reflexivity]. }
  unfold request_of, build_request.
  destruct (images_of _get_media_attachments _download_image status) as [|d rest] eqn:E.
  - symmetry. exact Himg.
  - eexists _, _. split; [reflexivity|].
    rewrite image_parts_images. split; [exact Himg|]. split; [discriminate|reflexivity].
Qed.

(** With the default of three attempts a call sleeps between 5 and 45
seconds in all: 5 when the first attempt succeeds, 45 (5, 10, 5, 20, 5)
when the third attempt is made. *)
Theorem call_sleeps_at_most_45_seconds post_text status (s : St) :
  let s' := snd (generate post_text status default_max_retries s) in
  5 <= total_sleep (trace s') - total_sleep (trace s) <= 45.
Proof.
  intros s'. subst s'. rewrite generate_unfold.
  assert (Hdl : total_sleep (downloads_of _get_media_attachments status
                             : list (Event Image)) = 0).
  { unfold downloads_of. destruct status as [st|]; [|reflexivity].
    induction (_get_media_attachments st) as [|m rest IH]; [reflexivity|exact IH]. }
  change (range default_max_retries) with [0; 1; 2].
  rewrite attempt_loop_cons. cbn [calls trace].
  destruct (service (calls s) _) as [e0|t0]; cbn [Z.ltb Z.compare Z.sub Z.add Z.opp
    Z.pos_sub default_max_retries Pos.compare Pos.compare_cont].
  - change (0 <? default_max_retries - 1) with true. cbn iota.
    rewrite attempt_loop_cons. cbn [calls trace].
    destruct (service (S (calls s)) _) as [e1|t1].
    + change (1 <? default_max_retries - 1) with true. cbn iota.
      rewrite attempt_loop_cons. cbn [calls trace].
      destruct (service (S (S (calls s))) _) as [e2|t2].
      * change (2 <? default_max_retries - 1) with false. cbn iota. cbn [snd trace].
        rewrite !total_sleep_app, Hdl. cbn. lia.
      * cbn [snd trace]. rewrite !total_sleep_app, Hdl. cbn. lia.
    + cbn [snd trace]. rewrite !total_sleep_app, Hdl. cbn. lia.
  - cbn [snd trace]. rewrite !total_sleep_app, Hdl. cbn. lia.
Qed.

End MoreOnTheGenerator.

(** One attempt allowed and a failing service: the fallback comes back,
and it is trimmed. *)
Lemma reply_is_trimmed_witness :
  fst (example_run always_failing 1) = inr (Some fallback)
  /\ strip fallback = fallback.
Proof.
  destruct (reply_is_trimmed plain no_media no_image always_failing
              (py "hello") None 1 fresh ltac:(lia))
    as (text & Hrun & Htrim & _).
  change (fst (example_run always_failing 1) = inr (Some text)) in Hrun.
  assert (Htext : text = fallback).
  { assert (H : fst (example_run always_failing 1) = inr (Some fallback)) by reflexivity.
    congruence. }
  subst text. split; [exact Hrun|exact Htrim].
Defined.

(** A service that answers with three spaces: the reply is empty. *)
Lemma blank_response_witness :
  fst (example_run blank 3) = inr (Some []).
Proof.
  apply (blank_response_gives_empty_reply plain no_media no_image blank
           (py "hello") None 3 fresh (py "   ")).
  - lia.
  - reflexivity.
  - repeat constructor.
Defined.

(** A post with one attachment whose download fails. *)
Lemma failed_downloads_witness :
  fst (generate_entertainment_response plain
         (fun _ : unit => [mkMedia (py "https://example.org/a.png") None])
         no_image failing_once (py "hello") (Some tt) 3 fresh)
  = fst (example_run failing_once 3).
Proof.
  apply (failed_downloads_degrade_to_text_only plain
           (fun _ : unit => [mkMedia (py "https://example.org/a.png") None])
           no_image failing_once (py "hello") tt 3 fresh).
  repeat constructor.
Defined.

End GeneratorFacts.


(** ** Rate limiter *)

Module RateLimiterFacts.
Import RateLimiter.

Lemma spaced_filter gap (keep : Z -> bool) times :
  spaced gap times -> spaced gap (List.filter keep times).
Proof.
  unfold spaced. induction 1 as [|t rest Hrest IH Hall]; simpl; [constructor|].
  destruct (keep t); [|exact IH].
  constructor; [exact IH|].
  rewrite Forall_forall in *. intros x Hx.
  apply Hall. apply filter_In in Hx. tauto.
Qed.

(** [n] spaced times that all lie in [lo, hi) need [(n - 1) * gap < hi - lo]. *)
Lemma spaced_span gap hi times :
  spaced gap times ->
  forall lo,
    Forall (fun t => lo <= t < hi) times ->
    times = [] \/ lo + (Z.of_nat (List.length times) - 1) * gap < hi.
Proof.
  unfold spaced. induction 1 as [|t rest Hrest IH Hall]; intros lo Hin; [left; reflexivity|].
  right. inversion Hin as [|? ? Ht Hin']; subst.
  destruct (IH (t + gap)) as [->|Hlt].
  - rewrite Forall_forall in *. intros x Hx.
    specialize (Hall x Hx). specialize (Hin' x Hx). simpl in Hall. lia.
  - simpl. lia.
  - simpl List.length. lia.
Qed.

Section Clocked.

Variable hz : positive.

(** A call always returns, raises nothing, and returns at least 2 seconds
after it was made. *)
Lemma handle_rate_limit_run (w : World) :
  exists w',
    _handle_rate_limit hz w = (inr tt, w')
    /\ clock w + secs hz 2 <= clock w'.
Proof.
  destruct w as [now lag b].
  unfold _handle_rate_limit, bind, time_time, self, when, update, asyncio_sleep, modify, ret.
  cbn [clock bot lags].
  assert (Hpos : 0 < secs hz 2) by (unfold secs; lia).
  destruct (now - last_request_time b >=? secs hz 60); cbn [clock bot lags];
    match goal with
    | |- context [if ?c then _ else _] => destruct c
    end; cbn [clock bot lags];
    try match goal with
    | |- context [if ?c then _ else _] => destruct c
    end; cbn [clock bot lags];
    eexists; (split; [reflexivity|]); cbn [clock]; lia.
Qed.

(** The times at which the calls of a sequence return are at least 2
seconds apart, and the first one is at least 2 seconds after the start. *)
Lemma serve_spaced (gaps : list N) :
  forall w,
    exists times w',
      serve hz gaps w = (inr times, w')
      /\ spaced (secs hz 2) times
      /\ Forall (fun t => clock w + secs hz 2 <= t) times
      /\ List.length times = List.length gaps.
Proof.
  assert (Hpos : 0 < secs hz 2) by (unfold secs; lia).
  induction gaps as [|gap rest IH]; intros w.
  - exists [], w. repeat split; constructor.
  - cbn [serve]. unfold bind at 1. unfold modify at 1.
    set (w1 := mkWorld (clock w + Z.of_N gap) (lags w) (bot w)).
    destruct (handle_rate_limit_run w1) as (w2 & Hrun & Hclock).
    unfold bind at 1. rewrite Hrun.
    unfold bind at 1. unfold time_time at 1.
    destruct (IH w2) as (later & w3 & Hserve & Hspaced & Hafter & Hlen).
    unfold bind at 1. rewrite Hserve. unfold ret.
    exists (clock w2 :: later), w3.
    split; [reflexivity|]. split; [|split].
    + constructor; [exact Hspaced|exact Hafter].
    + assert (Hw1 : clock w <= clock w1) by (simpl; lia).
      constructor; [lia|].
      eapply Forall_impl; [|exact Hafter]. simpl. intros t Ht. lia.
    + simpl. rewrite Hlen. reflexivity.
Qed.

(** C2: for every sequence of calls, made at arbitrary times from an
arbitrary state of the bot and with sleeps that may last longer than
asked, every call returns, and of the times at which the calls return at
most 30 lie in any window of 60 seconds. *)
Theorem C2_at_most_30_per_window (gaps : list N) (w : World) :
  exists times w',
    serve hz gaps w = (inr times, w')
    /\ List.length times = List.length gaps
    /\ forall start, (List.length (in_window hz start times) <= 30)%nat.
Proof.
  destruct (serve_spaced gaps w) as (times & w' & Hserve & Hspaced & _ & Hlen).
  exists times, w'. split; [exact Hserve|]. split; [exact Hlen|].
  intros start. unfold in_window.
  set (keep := fun t => (start <=? t) && (t <? start + secs hz 60)).
  destruct (spaced_span (secs hz 2) (start + secs hz 60) (List.filter keep times)
              (spaced_filter _ keep _ Hspaced) start) as [->|Hspan].
  - rewrite Forall_forall. intros t Ht. apply filter_In in Ht.
    destruct Ht as [_ Ht]. unfold keep in Ht. lia.
  - simpl. lia.
  - unfold secs in Hspan. nia.
Qed.

End Clocked.

Section Pacing.

Variable hz : positive.

(** After a call the count is between 1 and the ceiling, whatever it was
before, and a call that comes 60 seconds or more after the start of the
window starts a new window at the time of the call. *)
Theorem count_stays_under_ceiling (w : World) :
  1 <= max_requests_per_minute (bot w) ->
  0 <= request_count (bot w) ->
  exists w',
    _handle_rate_limit hz w = (inr tt, w')
    /\ max_requests_per_minute (bot w') = max_requests_per_minute (bot w)
    /\ 1 <= request_count (bot w') <= max_requests_per_minute (bot w')
    /\ (secs hz 60 <= clock w - last_request_time (bot w) ->
        request_count (bot w') = 1 /\ last_request_time (bot w') = clock w).
Proof.
  destruct w as [now lag b]. cbn [clock bot lags]. intros Hmax Hcount.
  unfold _handle_rate_limit, bind, time_time, self, when, update, asyncio_sleep, modify, ret.
  cbn [clock bot lags].
  destruct (Z.geb_spec (now - last_request_time b) (secs hz 60)) as [Hold|Hyoung];
    cbn [clock bot lags request_count max_requests_per_minute
         set_request_count set_last_request_time].
  - destruct (Z.geb_spec 0 (max_requests_per_minute b)) as [Hge|_]; [lia|].
    cbn [clock bot lags]. eexists. split; [reflexivity|].
    cbn [bot request_count max_requests_per_minute last_request_time
         set_request_count set_last_request_time].
    repeat split; lia.
  - destruct (Z.geb_spec (request_count b) (max_requests_per_minute b)) as [Hfull|Hroom].
    + destruct (Z.gtb_spec (secs hz 60 - (now - last_request_time b)) 0) as [_|Hno]; [|lia].
      cbn [clock bot lags]. eexists. split; [reflexivity|].
      cbn [bot request_count max_requests_per_minute last_request_time
           set_request_count set_last_request_time].
      repeat split; lia.
    + cbn [clock bot lags]. eexists. split; [reflexivity|].
      cbn [bot request_count max_requests_per_minute last_request_time
           set_request_count set_last_request_time].
      repeat split; lia.
Qed.

(** In a paced window a call sleeps once, for 2 seconds, and leaves the
window paced: the branch that waits for the end of the window is not
taken. *)
Lemma handle_rate_limit_paced (w : World) :
  paced hz w ->
  exists w',
    _handle_rate_limit hz w = (inr tt, w')
    /\ clock w' = clock w + secs hz 2 + Z.of_N (hd 0%N (lags w))
    /\ lags w' = tl (lags w)
    /\ paced hz w'.
Proof.
  destruct w as [now lag b]. unfold paced. cbn [clock bot lags].
  intros (Hcount & Hmax & Hpace).
  assert (Hhz : 0 < Z.pos hz) by lia.
  unfold _handle_rate_limit, bind, time_time, self, when, update, asyncio_sleep, modify, ret.
  cbn [clock bot lags].
  destruct (Z.geb_spec (now - last_request_time b) (secs hz 60)) as [Hold|Hyoung];
    cbn [clock bot lags request_count max_requests_per_minute
         set_request_count set_last_request_time].
  - rewrite Hmax. cbn [Z.geb Z.compare]. cbn [clock bot lags].
    eexists. split; [reflexivity|].
    cbn [clock bot lags request_count max_requests_per_minute last_request_time
         set_request_count set_last_request_time].
    unfold secs in *. repeat split; lia.
  - destruct (Z.geb_spec (request_count b) (max_requests_per_minute b)) as [Hfull|Hroom].
    + exfalso. unfold secs in *. nia.
    + cbn [clock bot lags]. eexists. split; [reflexivity|].
      cbn [clock bot lags request_count max_requests_per_minute last_request_time
           set_request_count set_last_request_time].
      unfold secs in *. repeat split; lia.
Qed.

Lemma serve_paced (gaps : list N) :
  forall w,
    paced hz w ->
    exists times w',
      serve hz gaps w = (inr times, w')
      /\ lags w' = skipn (List.length gaps) (lags w)
      /\ clock w'
         = clock w + total gaps + total (firstn (List.length gaps) (lags w))
           + secs hz 2 * Z.of_nat (List.length gaps)
      /\ paced hz w'.
Proof.
  induction gaps as [|gap rest IH]; intros w Hpaced.
  - exists [], w. split; [reflexivity|]. split; [reflexivity|].
    split; [|exact Hpaced]. cbn [List.length]. rewrite firstn_O.
    cbn [total fold_right]. unfold secs. lia.
  - cbn [serve]. unfold bind at 1. unfold modify at 1.
    set (w1 := mkWorld (clock w + Z.of_N gap) (lags w) (bot w)).
    assert (Hpaced1 : paced hz w1).
    { unfold paced in *. cbn [w1 clock bot]. repeat split; try apply Hpaced.
      destruct Hpaced as (_ & _ & Hp). lia. }
    destruct (handle_rate_limit_paced w1 Hpaced1) as (w2 & Hrun & Hclock & Hlags & Hpaced2).
    unfold bind at 1. rewrite Hrun.
    unfold bind at 1. unfold time_time at 1.
    destruct (IH w2 Hpaced2) as (later & w3 & Hserve & Hlags3 & Hclock3 & Hpaced3).
    unfold bind at 1. rewrite Hserve. unfold ret.
    exists (clock w2 :: later), w3. split; [reflexivity|].
    cbn [w1 clock lags] in Hclock, Hlags.
    rewrite Hlags3, Hclock3, Hclock, Hlags. cbn [List.length].
    destruct (lags w) as [|l ls]; cbn [tl hd].
    + rewrite !skipn_nil, !firstn_nil.
      split; [reflexivity|]. split; [|exact Hpaced3].
      change (total (gap :: rest)) with (Z.of_N gap + total rest).
      change (total []) with 0. unfold secs. lia.
    + rewrite skipn_cons, firstn_cons.
      split; [reflexivity|]. split; [|exact Hpaced3].
      change (total (gap :: rest)) with (Z.of_N gap + total rest).
      change (total (l :: ?x)) with (Z.of_N l + total x).
      unfold secs. lia.
Qed.

(** Used one call after the other from the state [__init__] leaves, on
a clock that shows a time after the epoch, the limiter never waits for
the end of a window: every call sleeps exactly once, for 2 seconds, so
the calls end at the start time plus the gaps between the calls, 2 seconds
per call, and what the sleeps overslept. *)
Theorem limiter_only_adds_two_seconds
    (t0 tb : Z) (loaded : gset pystr) (gaps lag : list N) :
  0 <= t0 ->
  exists times w',
    serve hz gaps (mkWorld t0 lag (init hz tb loaded)) = (inr times, w')
    /\ lags w' = skipn (List.length gaps) lag
    /\ clock w'
       = t0 + total gaps + total (firstn (List.length gaps) lag)
         + secs hz 2 * Z.of_nat (List.length gaps).
Proof.
  intros Ht0.
  destruct (serve_paced gaps (mkWorld t0 lag (init hz tb loaded)))
    as (times & w' & Hserve & Hlags & Hclock & _).
  - unfold paced. cbn. repeat split; lia.
  - exists times, w'. repeat split; assumption.
Qed.

End Pacing.

(** A window that is full and 10 seconds old: the call waits the other 50
seconds, then 2 more, and starts a new window with a count of 1. *)
Lemma count_stays_under_ceiling_witness :
  exists w',
    _handle_rate_limit 1
      (mkWorld 1010 [] (set_request_count 30 (set_last_request_time 1000 (init 1 0 ∅))))
    = (inr tt, w')
    /\ clock w' = 1062 /\ request_count (bot w') = 1 /\ last_request_time (bot w') = 1060.
Proof.
  destruct (count_stays_under_ceiling 1
              (mkWorld 1010 [] (set_request_count 30 (set_last_request_time 1000 (init 1 0 ∅))))
              ltac:(cbn; lia) ltac:(cbn; lia))
    as (w' & Hrun & _).
  exists w'. split; [exact Hrun|].
  injection Hrun as <-. repeat split.
Defined.

(** Three calls in a row from a bot constructed at time 1000, with a
first sleep that lasts a second too long: they end at time 1007. *)
Lemma limiter_only_adds_two_seconds_witness :
  exists times w',
    serve 1 [0; 0; 0]%N (mkWorld 1000 [1%N] (init 1 1000 ∅)) = (inr times, w')
    /\ clock w' = 1007.
Proof.
  destruct (limiter_only_adds_two_seconds 1 1000 1000 ∅ [0; 0; 0]%N [1%N] ltac:(lia))
    as (times & w' & Hserve & _ & Hclock).
  exists times, w'. split; [exact Hserve|exact Hclock].
Defined.

Section FullWindow.

Variable hz : positive.

(** When the ceiling is reached in a window younger than 60 seconds, the
call holds its caller until the window is 60 seconds old and 2 seconds
more, and then starts a new window with a count of 1. *)
Theorem full_window_waits_for_its_end (w : World) :
  max_requests_per_minute (bot w) <= request_count (bot w) ->
  clock w - last_request_time (bot w) < secs hz 60 ->
  exists w',
    _handle_rate_limit hz w = (inr tt, w')
    /\ last_request_time (bot w) + secs hz 62 <= clock w'
    /\ last_request_time (bot w) + secs hz 60 <= last_request_time (bot w')
    /\ last_request_time (bot w') + secs hz 2 <= clock w'
    /\ request_count (bot w') = 1.
Proof.
  destruct w as [now lag b]. cbn [clock bot lags]. intros Hfull Hyoung.
  unfold _handle_rate_limit, bind, time_time, self, when, update, asyncio_sleep, modify, ret.
  cbn [clock bot lags].
  destruct (Z.geb_spec (now - last_request_time b) (secs hz 60)) as [Hold|_]; [lia|].
  cbn [clock bot lags].
  destruct (Z.geb_spec (request_count b) (max_requests_per_minute b)) as [_|Hroom]; [|lia].
  destruct (Z.gtb_spec (secs hz 60 - (now - last_request_time b)) 0) as [_|Hno]; [|lia].
  cbn [clock bot lags]. eexists. split; [reflexivity|].
  cbn [clock bot lags request_count last_request_time
       set_request_count set_last_request_time].
  unfold secs in *. repeat split; lia.
Qed.

End FullWindow.

(** A window that is full and 10 seconds old. *)
Lemma full_window_witness :
  exists w',
    _handle_rate_limit 1
      (mkWorld 1010 [] (set_request_count 30 (set_last_request_time 1000 (init 1 0 ∅))))
    = (inr tt, w')
    /\ 1062 <= clock w'.
Proof.
  destruct (full_window_waits_for_its_end 1
              (mkWorld 1010 [] (set_request_count 30 (set_last_request_time 1000 (init 1 0 ∅))))
              ltac:(cbn; lia) ltac:(unfold secs; cbn; lia))
    as (w' & Hrun & Hclock & _).
  exists w'. split; [exact Hrun|exact Hclock].
Defined.

End RateLimiterFacts.

(** ** Scheduler loop *)

Module SchedulerFacts.
Import Scheduler.

Section Clocked.

Variable hz : positive.

(** [monitor_hashtag] returns normally whatever its body does. *)
Lemma monitor_hashtag_run (env : Env) (h : string) (s : State) :
  monitor_hashtag env h s
  = (inr tt,
     mkState (bot s)
             (trace s ++ EvMonitorHashtag h
                         :: match monitor_outcome env h with
                            | Some e => [EvPrint (MsgHashtagError h e)]
                            | None => []
                            end)).
Proof.
  destruct s as [b tr].
  unfold monitor_hashtag, try_except, action, bind, print, emit, modify, raise, ret.
  cbn [bot trace].
  destruct (monitor_outcome env h); cbn [bot trace]; rewrite <- ?app_assoc; reflexivity.
Qed.

Lemma for_each_monitor_run (env : Env) (hashtags : list string) :
  forall s,
    for_each hashtags (monitor_hashtag env) s
    = (inr tt, mkState (bot s) (trace s ++ monitor_events env hashtags)).
Proof.
  induction hashtags as [|h rest IH]; intros [b tr].
  - simpl. unfold ret. rewrite app_nil_r. reflexivity.
  - cbn [for_each]. unfold bind at 1. rewrite monitor_hashtag_run.
    rewrite IH. cbn [bot trace]. unfold monitor_events. cbn [flat_map].
    rewrite <- !app_assoc. reflexivity.
Qed.

(** The part of an iteration after the post step. *)
Lemma after_post_step_run (env : Env) (s : State) :
  after_post_step env s
  = let tr := trace s ++ monitor_events env (hashtags_to_monitor (bot s)) ++ [EvHandleDMs] in
    match dm_outcome env with
    | Some e => (inl e, mkState (bot s) tr)
    | None =>
        (inr tt,
         mkState (if is_midnight env then set_post_count 0 (bot s) else bot s)
                 (tr ++ [EvSleep 60]))
    end.
Proof.
  destruct s as [b tr]. unfold after_post_step.
  unfold bind at 1. unfold self at 1. cbn [bot].
  unfold bind at 1. rewrite for_each_monitor_run. cbn [bot trace].
  unfold handle_direct_messages, action, when, update, sleep, emit, bind, modify, raise, ret.
  cbn [bot trace].
  destruct (dm_outcome env) as [e|]; cbn [bot trace]; rewrite <- !app_assoc.
  - reflexivity.
  - destruct (is_midnight env); cbn [bot trace]; rewrite <- !app_assoc; reflexivity.
Qed.

(** The [try] block of an iteration, by cases. *)
Lemma run_forever_body_run (env : Env) (s : State) :
  run_forever_body env s
  = if will_post env (bot s) then
      match post_outcome env with
      | Some e => (inl e, mkState (bot s) (trace s ++ [EvCreatePost]))
      | None =>
          after_post_step env
            (mkState (posted env (bot s))
                     (trace s ++ [EvCreatePost;
                                  EvPrint (MsgAutoPostComplete (post_count (bot s) + 1)
                                                               (max_daily_posts (bot s)))]))
      end
    else after_post_step env s.
Proof.
  destruct s as [b tr].
  change (run_forever_body env)
    with (bind self (fun b => bind (when (current_time env - last_post_time b >=? auto_post_interval b)
                                         (post_if_under_quota env))
                                   (fun _ => after_post_step env))).
  unfold will_post. unfold bind at 1. unfold self at 1. cbn [bot].
  unfold bind at 1.
  destruct (current_time env - last_post_time b >=? auto_post_interval b); cbn [when andb].
  - unfold post_if_under_quota. unfold bind at 1. unfold self at 1. cbn [bot].
    destruct (post_count b <? max_daily_posts b); cbn [when].
    + unfold create_scheduled_post, action, update, print, emit, self, bind, modify, raise, ret.
      cbn [bot trace].
      destruct (post_outcome env) as [e|]; cbn [bot trace]; [reflexivity|].
      rewrite <- !app_assoc. reflexivity.
    + reflexivity.
  - reflexivity.
Qed.

(** One iteration never raises: what its [try] block raises is printed
and followed by a sleep of 300 seconds. *)
Lemma run_forever_iteration_closed (env : Env) (s : State) :
  run_forever_iteration env s
  = (inr tt, mkState (iteration_bot env (bot s)) (trace s ++ iteration_events env (bot s))).
Proof.
  destruct s as [b tr].
  unfold run_forever_iteration, try_except. rewrite run_forever_body_run.
  unfold iteration_bot, iteration_events. cbn [bot trace].
  destruct (will_post env b).
  - destruct (post_outcome env) as [e|].
    + unfold bind, print, sleep, emit, modify, ret. cbn [bot trace].
      rewrite <- !app_assoc. reflexivity.
    + rewrite after_post_step_run. cbn [bot trace].
      unfold after_post_events, after_post_bot.
      destruct (dm_outcome env) as [e|];
        unfold bind, print, sleep, emit, modify, ret; cbn [bot trace];
        rewrite <- !app_assoc; reflexivity.
  - rewrite after_post_step_run. cbn [bot trace].
    unfold after_post_events, after_post_bot.
    destruct (dm_outcome env) as [e|];
      unfold bind, print, sleep, emit, modify, ret; cbn [bot trace];
      rewrite <- !app_assoc; reflexivity.
Qed.

Lemma main_loop_closed (envs : list Env) :
  forall s,
    main_loop envs s
    = (inr tt, mkState (loop_bot envs (bot s)) (trace s ++ loop_events envs (bot s))).
Proof.
  induction envs as [|env rest IH]; intros [b tr].
  - simpl. unfold ret. rewrite app_nil_r. reflexivity.
  - cbn [main_loop loop_bot loop_events]. unfold bind at 1. unfold self at 1. cbn [bot trace].
    destruct (is_running b).
    + unfold bind at 1. rewrite run_forever_iteration_closed. rewrite IH.
      cbn [bot trace]. rewrite <- app_assoc. reflexivity.
    + unfold ret. rewrite app_nil_r. reflexivity.
Qed.

Lemma run_forever_closed (envs : list Env) (s : State) :
  run_forever envs s
  = (inr tt,
     mkState (loop_bot envs (set_is_running true (bot s)))
             (trace s ++ EvPrint MsgStarting
                         :: loop_events envs (set_is_running true (bot s)))).
Proof.
  destruct s as [b tr].
  unfold run_forever, bind, update, print, emit, modify. cbn [bot trace].
  rewrite main_loop_closed. cbn [bot trace]. rewrite <- app_assoc. reflexivity.
Qed.

(** *** What an iteration keeps *)

Lemma after_post_bot_keeps (env : Env) (b : Bot) :
  is_running (after_post_bot env b) = is_running b
  /\ auto_post_interval (after_post_bot env b) = auto_post_interval b
  /\ max_daily_posts (after_post_bot env b) = max_daily_posts b
  /\ last_post_time (after_post_bot env b) = last_post_time b
  /\ hashtags_to_monitor (after_post_bot env b) = hashtags_to_monitor b.
Proof.
  unfold after_post_bot.
  destruct (dm_outcome env); [|destruct (is_midnight env)]; repeat split.
Qed.

Lemma iteration_bot_keeps (env : Env) (b : Bot) :
  is_running (iteration_bot env b) = is_running b
  /\ auto_post_interval (iteration_bot env b) = auto_post_interval b
  /\ max_daily_posts (iteration_bot env b) = max_daily_posts b
  /\ hashtags_to_monitor (iteration_bot env b) = hashtags_to_monitor b.
Proof.
  unfold iteration_bot.
  destruct (will_post env b); [destruct (post_outcome env)|];
    try (repeat split; reflexivity);
    destruct (after_post_bot_keeps env (posted env b)) as (? & ? & ? & ? & ?);
    destruct (after_post_bot_keeps env b) as (? & ? & ? & ? & ?);
    repeat split; assumption.
Qed.

(** [post_count] stays between 0 and the quota: the post step is the only
place that adds to it, and it is guarded by [post_count < max_daily_posts]. *)
Lemma iteration_post_count_in_range (env : Env) (b : Bot) :
  0 <= post_count b <= max_daily_posts b ->
  0 <= post_count (iteration_bot env b) <= max_daily_posts (iteration_bot env b).
Proof.
  intros Hrange.
  destruct (iteration_bot_keeps env b) as (_ & _ & -> & _).
  unfold iteration_bot, will_post, after_post_bot, posted.
  destruct (current_time env - last_post_time b >=? auto_post_interval b); cbn [andb];
    [destruct (post_count b <? max_daily_posts b) eqn:Hq;
     [apply Z.ltb_lt in Hq; destruct (post_outcome env)|]|];
    destruct (dm_outcome env); try destruct (is_midnight env);
    cbn [post_count set_post_count set_last_post_time]; lia.
Qed.

Lemma loop_post_count_in_range (envs : list Env) :
  forall b,
    0 <= post_count b <= max_daily_posts b ->
    0 <= post_count (loop_bot envs b) <= max_daily_posts (loop_bot envs b).
Proof.
  induction envs as [|env rest IH]; intros b Hrange; cbn [loop_bot]; [exact Hrange|].
  destruct (is_running b); [|exact Hrange].
  apply IH, iteration_post_count_in_range, Hrange.
Qed.

(** *** Counting in a trace *)

Lemma posts_app (a b : list Event) : posts (a ++ b) = (posts a + posts b)%nat.
Proof. unfold posts. rewrite List.filter_app, length_app. reflexivity. Qed.

Lemma iterations_app (a b : list Event) :
  iterations (a ++ b) = (iterations a + iterations b)%nat.
Proof. unfold iterations. rewrite List.filter_app, length_app. reflexivity. Qed.

Lemma actions_app (a b : list Event) : actions (a ++ b) = actions a ++ actions b.
Proof. unfold actions. apply List.filter_app. Qed.

Lemma monitor_events_facts (env : Env) (hashtags : list string) :
  posts (monitor_events env hashtags) = 0%nat
  /\ iterations (monitor_events env hashtags) = 0%nat
  /\ actions (monitor_events env hashtags) = List.map EvMonitorHashtag hashtags
  /\ existsb is_auto_like (monitor_events env hashtags) = false.
Proof.
  unfold posts, iterations, actions.
  induction hashtags as [|h rest (IHp & IHi & IHa & IHl)]; [repeat split|].
  cbn [monitor_events flat_map List.map].
  destruct (monitor_outcome env h); cbn; fold (monitor_events env rest);
    rewrite ?IHa; repeat split; assumption.
Qed.

Lemma after_post_events_facts (env : Env) (b : Bot) :
  posts (after_post_events env b) = 0%nat
  /\ iterations (after_post_events env b) = 1%nat
  /\ actions (after_post_events env b)
     = List.map EvMonitorHashtag (hashtags_to_monitor b) ++ [EvHandleDMs]
  /\ existsb is_auto_like (after_post_events env b) = false.
Proof.
  destruct (monitor_events_facts env (hashtags_to_monitor b)) as (Hp & Hi & Ha & Hl).
  unfold after_post_events.
  rewrite posts_app, iterations_app, actions_app, existsb_app, Hp, Hi, Ha, Hl.
  destruct (dm_outcome env); repeat split.
Qed.

Lemma iteration_events_facts (env : Env) (b : Bot) :
  posts (iteration_events env b) = (if will_post env b then 1 else 0)%nat
  /\ iterations (iteration_events env b) = 1%nat
  /\ existsb is_auto_like (iteration_events env b) = false.
Proof.
  unfold iteration_events.
  destruct (after_post_events_facts env b) as (Hp & Hi & _ & Hl).
  destruct (after_post_events_facts env (posted env b)) as (Hp' & Hi' & _ & Hl').
  destruct (will_post env b); [destruct (post_outcome env)|];
    try (repeat split; assumption).
  change (EvCreatePost :: ?x :: ?l) with ([EvCreatePost; x] ++ l).
  rewrite posts_app, iterations_app, existsb_app, Hp', Hi', Hl'. repeat split.
Qed.

(** A running loop makes one iteration per environment and keeps
running. *)
Lemma loop_runs_every_iteration (envs : list Env) :
  forall b,
    is_running b = true ->
    iterations (loop_events envs b) = List.length envs
    /\ is_running (loop_bot envs b) = true.
Proof.
  induction envs as [|env rest IH]; intros b Hrun; cbn [loop_events loop_bot].
  - split; [reflexivity|exact Hrun].
  - rewrite Hrun.
    destruct (iteration_events_facts env b) as (_ & Hone & _).
    destruct (iteration_bot_keeps env b) as (Hkeep & _).
    destruct (IH (iteration_bot env b)) as [Hn Hr]; [congruence|].
    rewrite iterations_app, Hone, Hn. split; [reflexivity|exact Hr].
Qed.

(** C4, as the code has it: an iteration of [run_forever] always ends
normally, never likes trending posts, and runs its three actions in the
order scheduled post (when due and under the quota), hashtags in the
order of the list, direct messages; when the scheduled post raises, the
post is the only action of the iteration. *)
Theorem C4_three_actions_in_order (env : Env) (s : State) :
  exists s' events,
    run_forever_iteration env s = (inr tt, s')
    /\ trace s' = trace s ++ events
    /\ existsb is_auto_like events = false
    /\ actions events
       = match post_outcome env with
         | Some _ =>
             if will_post env (bot s) then [EvCreatePost]
             else actions_in_order env (bot s)
         | None => actions_in_order env (bot s)
         end.
Proof.
  exists (mkState (iteration_bot env (bot s)) (trace s ++ iteration_events env (bot s))),
         (iteration_events env (bot s)).
  split; [apply run_forever_iteration_closed|]. split; [reflexivity|].
  split; [apply iteration_events_facts|].
  unfold iteration_events, actions_in_order.
  destruct (after_post_events_facts env (bot s)) as (_ & _ & Ha & _).
  destruct (after_post_events_facts env (posted env (bot s))) as (_ & _ & Ha' & _).
  destruct (will_post env (bot s)), (post_outcome env);
    cbn [app]; try reflexivity; try exact Ha.
  change (EvCreatePost :: ?x :: ?l) with ([EvCreatePost; x] ++ l).
  rewrite actions_app, Ha'. reflexivity.
Qed.

(** C7: whatever the [try] block of an iteration raises, the iteration
ends normally with the error printed and a sleep of 300 seconds, the bot
is still running, and the loop goes on with the next iteration and
through all the iterations that remain. *)
Theorem C7_exception_is_caught_and_loop_resumes
    (env : Env) (rest : list Env) (s s1 : State) (e : Exn) :
  is_running (bot s) = true ->
  run_forever_body env s = (inl e, s1) ->
  let s' := mkState (bot s1) (trace s1 ++ [EvPrint (MsgMainLoopError e); EvSleep 300]) in
  run_forever_iteration env s = (inr tt, s')
  /\ is_running (bot s') = true
  /\ main_loop (env :: rest) s = main_loop rest s'
  /\ exists s_end,
       main_loop (env :: rest) s = (inr tt, s_end)
       /\ iterations (trace s_end) = (iterations (trace s) + S (List.length rest))%nat.
Proof.
  intros Hrun Hbody s'.
  assert (Hiter : run_forever_iteration env s = (inr tt, s')).
  { unfold run_forever_iteration, try_except. rewrite Hbody.
    unfold bind, print, sleep, emit, modify, ret. cbn [bot trace].
    rewrite <- app_assoc. reflexivity. }
  assert (Hbot : bot s' = iteration_bot env (bot s)).
  { pose proof (f_equal (fun r => bot (snd r)) Hiter) as Heq.
    rewrite run_forever_iteration_closed in Heq. symmetry. exact Heq. }
  split; [exact Hiter|]. split; [|split].
  - change (bot s') with (bot s1) in *.
    rewrite Hbot. destruct (iteration_bot_keeps env (bot s)) as (-> & _). exact Hrun.
  - cbn [main_loop]. unfold bind at 1. unfold self at 1. rewrite Hrun.
    unfold bind at 1. rewrite Hiter. reflexivity.
  - rewrite main_loop_closed. eexists. split; [reflexivity|].
    cbn [trace]. rewrite iterations_app.
    destruct (loop_runs_every_iteration (env :: rest) (bot s) Hrun) as [-> _].
    reflexivity.
Qed.

(** C10: as long as the clock shows less than [auto_post_interval] (1800
seconds) since the construction of the bot, no iteration of [run_forever]
posts, whatever else happens in the iterations. *)
Theorem C10_no_post_in_first_interval (t0 : Z) (loaded : gset pystr) (envs : list Env) :
  Forall (fun env => current_time env - t0 < secs hz 1800) envs ->
  exists s',
    run_forever envs (mkState (init hz t0 loaded) []) = (inr tt, s')
    /\ posts (trace s') = 0%nat
    /\ last_post_time (bot s') = t0
    /\ iterations (trace s') = List.length envs.
Proof.
  intros Hearly. rewrite run_forever_closed. eexists. split; [reflexivity|].
  cbn [bot trace app].
  set (b0 := set_is_running true (init hz t0 loaded)).
  assert (Hinv : is_running b0 = true /\ last_post_time b0 = t0
                 /\ auto_post_interval b0 = secs hz 1800) by (repeat split).
  clearbody b0. revert b0 Hinv.
  induction Hearly as [|env rest Henv Hrest IH]; intros b (Hrun & Hlast & Hint).
  - repeat split. exact Hlast.
  - cbn [loop_events loop_bot]. rewrite Hrun.
    assert (Hno : will_post env b = false).
    { unfold will_post. rewrite Hlast, Hint.
      replace (current_time env - t0 >=? secs hz 1800) with false; [reflexivity|].
      symmetry. rewrite Z.geb_leb. apply Z.leb_gt. exact Henv. }
    assert (Hbot : iteration_bot env b = after_post_bot env b).
    { unfold iteration_bot. rewrite Hno. reflexivity. }
    destruct (after_post_bot_keeps env b) as (Hr & Hi & _ & Hl & _).
    destruct (IH (iteration_bot env b)) as (Hp & Hlast' & Hn).
    { rewrite Hbot. repeat split; congruence. }
    destruct (iteration_events_facts env b) as (Hp1 & Hi1 & _). rewrite Hno in Hp1.
    change (EvPrint MsgStarting :: ?l) with ([EvPrint MsgStarting] ++ l) in *.
    rewrite !posts_app, !iterations_app in *. rewrite Hp1, Hi1. cbn [List.length].
    split; [|split]; [| exact Hlast' |].
    + cbn in Hp |- *. exact Hp.
    + cbn in Hn |- *. rewrite Hn. reflexivity.
Qed.

(** C5, as the code has it: with a quota of 2 and an interval of 0, from
a count of 0, on a clock that does not run backwards, when the scheduled
post does not raise and the midnight reset does not fire in the first two
iterations, three iterations make exactly 2 posts: the first two post
once each and count, the third skips the post step. *)
Theorem C5_two_posts_in_three_iterations (e1 e2 e3 : Env) (s : State) :
  is_running (bot s) = true ->
  max_daily_posts (bot s) = 2 ->
  auto_post_interval (bot s) = 0 ->
  post_count (bot s) = 0 ->
  last_post_time (bot s) <= current_time e1 <= current_time e2 ->
  current_time e2 <= current_time e3 ->
  post_outcome e1 = None -> post_outcome e2 = None ->
  is_midnight e1 = false -> is_midnight e2 = false ->
  exists s1 s2 s3,
    run_forever_iteration e1 s = (inr tt, s1)
    /\ run_forever_iteration e2 s1 = (inr tt, s2)
    /\ run_forever_iteration e3 s2 = (inr tt, s3)
    /\ main_loop [e1; e2; e3] s = (inr tt, s3)
    /\ posts (trace s1) = (posts (trace s) + 1)%nat /\ post_count (bot s1) = 1
    /\ posts (trace s2) = (posts (trace s1) + 1)%nat /\ post_count (bot s2) = 2
    /\ posts (trace s3) = posts (trace s2)
    /\ posts (trace s3) = (posts (trace s) + 2)%nat.
Proof.
  intros Hrun Hmax Hint Hcount [Ht1 Ht2] Ht3 Hp1 Hp2 Hm1 Hm2.
  destruct s as [b tr]. cbn [bot trace] in *.
  assert (Hstep : forall env b, post_outcome env = None -> is_midnight env = false ->
            will_post env b = true ->
            post_count (iteration_bot env b) = post_count b + 1
            /\ last_post_time (iteration_bot env b) = current_time env).
  { intros env b' Hp Hm Hw. unfold iteration_bot, after_post_bot, posted.
    rewrite Hw, Hp, Hm. destruct (dm_outcome env); split; reflexivity. }
  assert (Hw1 : will_post e1 b = true).
  { unfold will_post. rewrite Hint, Hmax, Hcount.
    replace (current_time e1 - last_post_time b >=? 0) with true; [reflexivity|].
    symmetry. rewrite Z.geb_leb. apply Z.leb_le. lia. }
  set (b1 := iteration_bot e1 b).
  destruct (iteration_bot_keeps e1 b) as (Hr1 & Hi1 & Hx1 & _). fold b1 in Hr1, Hi1, Hx1.
  destruct (Hstep e1 b Hp1 Hm1 Hw1) as [Hc1 Hl1]. fold b1 in Hc1, Hl1.
  assert (Hw2 : will_post e2 b1 = true).
  { unfold will_post. rewrite Hi1, Hint, Hx1, Hmax, Hc1, Hcount, Hl1.
    replace (current_time e2 - current_time e1 >=? 0) with true; [reflexivity|].
    symmetry. rewrite Z.geb_leb. apply Z.leb_le. lia. }
  set (b2 := iteration_bot e2 b1).
  destruct (iteration_bot_keeps e2 b1) as (Hr2 & Hi2 & Hx2 & _). fold b2 in Hr2, Hi2, Hx2.
  destruct (Hstep e2 b1 Hp2 Hm2 Hw2) as [Hc2 Hl2]. fold b2 in Hc2, Hl2.
  assert (Hw3 : will_post e3 b2 = false).
  { unfold will_post. rewrite Hx2, Hx1, Hmax, Hc2, Hc1, Hcount.
    apply andb_false_r. }
  destruct (iteration_events_facts e1 b) as (Hn1 & _). rewrite Hw1 in Hn1.
  destruct (iteration_events_facts e2 b1) as (Hn2 & _). rewrite Hw2 in Hn2.
  destruct (iteration_events_facts e3 b2) as (Hn3 & _). rewrite Hw3 in Hn3.
  exists (mkState b1 (tr ++ iteration_events e1 b)),
         (mkState b2 ((tr ++ iteration_events e1 b) ++ iteration_events e2 b1)),
         (mkState (iteration_bot e3 b2)
                  (((tr ++ iteration_events e1 b) ++ iteration_events e2 b1)
                   ++ iteration_events e3 b2)).
  rewrite !run_forever_iteration_closed, main_loop_closed.
  cbn [bot trace loop_bot loop_events].
  fold b1. rewrite Hrun. fold b2. rewrite Hr1, Hrun.
  replace (is_running b2) with true by congruence.
  rewrite !posts_app, Hn1, Hn2, Hn3, app_nil_r, !app_assoc.
  repeat split; try reflexivity; lia.
Qed.

End Clocked.

(** An iteration in which [handle_direct_messages] raises: the error is
printed, the bot sleeps 300 seconds, and the next iteration runs. *)
Lemma C7_witness :
  run_forever_iteration (dm_failure_at 10) example_start
  = (inr tt,
     mkState example_bot
             [EvMonitorHashtag "tech"; EvMonitorHashtag "AI"; EvMonitorHashtag "programming";
              EvHandleDMs; EvPrint (MsgMainLoopError boom); EvSleep 300])
  /\ iterations
       (trace (snd (main_loop [dm_failure_at 10; calm_at 1 400] example_start))) = 2%nat.
Proof.
  destruct (C7_exception_is_caught_and_loop_resumes
              (dm_failure_at 10) [calm_at 1 400] example_start
              (mkState example_bot
                       [EvMonitorHashtag "tech"; EvMonitorHashtag "AI";
                        EvMonitorHashtag "programming"; EvHandleDMs])
              boom eq_refl eq_refl)
    as (Hiter & _ & _ & s_end & Hend & Hn).
  split; [exact Hiter|]. rewrite Hend. exact Hn.
Defined.

(** The other loop, [schedule_auto_posts], is the one that likes trending
posts, and it does not monitor hashtags: at a time in the first minute of
a 5-minute period its actions are the post, the direct messages and the
auto-like. *)
Example schedule_auto_posts_likes :
  actions (trace (snd (schedule_auto_posts 1
                         (Some (mkDMSettings true true 300)) boom boom
                         [calm_at 1 1800] example_start)))
  = [EvCreatePost; EvHandleDMs; EvAutoLike].
Proof. reflexivity. Qed.

(** C4, as stated, fails: an iteration of [run_forever] in which the post
is due and nothing raises runs the post, the three hashtags and the direct
messages, and no auto-like. *)
Lemma C4_counterexample :
  actions (trace (snd (run_forever_iteration (calm_at 1 1800) example_start)))
  = [EvCreatePost; EvMonitorHashtag "tech"; EvMonitorHashtag "AI";
     EvMonitorHashtag "programming"; EvHandleDMs]
  /\ ~ In EvAutoLike (trace (snd (run_forever_iteration (calm_at 1 1800) example_start))).
Proof.
  split; [reflexivity|].
  intros Hin.
  assert (Hlike : existsb is_auto_like
                    (trace (snd (run_forever_iteration (calm_at 1 1800) example_start)))
                  = true).
  { apply existsb_exists. exists EvAutoLike. split; [exact Hin|reflexivity]. }
  vm_compute in Hlike. discriminate Hlike.
Qed.

(** Two iterations 10 and 1799 seconds after the construction: no post. *)
Lemma C10_witness :
  posts (trace (snd (run_forever [calm_at 1 10; calm_at 1 1799]
                                 (mkState (init 1 0 ∅) [])))) = 0%nat.
Proof.
  destruct (C10_no_post_in_first_interval 1 0 ∅ [calm_at 1 10; calm_at 1 1799])
    as (s' & Hrun & Hposts & _).
  - repeat constructor.
  - rewrite Hrun. exact Hposts.
Defined.

(** C5, as stated, fails: when the first of the three iterations runs in
the minute after local midnight, the count is reset after the first post
and all three iterations post. *)
Lemma C5_counterexample :
  max_daily_posts (bot scenario_start) = 2
  /\ auto_post_interval (bot scenario_start) = 0
  /\ posts (trace (snd (main_loop [calm_at 1 86400; calm_at 1 86466; calm_at 1 86532]
                                  scenario_start))) = 3%nat.
Proof. vm_compute. repeat split. Qed.

(** Away from midnight the three iterations of the scenario post twice. *)
Lemma C5_witness :
  posts (trace (snd (main_loop [calm_at 1 4000; calm_at 1 4066; calm_at 1 4132]
                               scenario_start))) = 2%nat.
Proof.
  destruct (C5_two_posts_in_three_iterations
              (calm_at 1 4000) (calm_at 1 4066) (calm_at 1 4132) scenario_start
              eq_refl eq_refl eq_refl eq_refl
              ltac:(vm_compute; split; discriminate) ltac:(vm_compute; discriminate)
              eq_refl eq_refl eq_refl eq_refl)
    as (s1 & s2 & s3 & _ & _ & _ & Hloop & _ & _ & _ & _ & _ & Htotal).
  rewrite Hloop. exact Htotal.
Defined.


Section MoreOnTheLoops.

Variable hz : positive.

Lemma completed_app (a b : list Event) :
  completed (a ++ b) = (completed a + completed b)%nat.
Proof. unfold completed. rewrite List.filter_app, length_app. reflexivity. Qed.

Lemma completed_monitor_events (env : Env) (hashtags : list string) :
  completed (monitor_events env hashtags) = 0%nat.
Proof.
  unfold completed. induction hashtags as [|h rest IH]; [reflexivity|].
  cbn [monitor_events flat_map]. destruct (monitor_outcome env h); exact IH.
Qed.

Lemma completed_after_post_events (env : Env) (b : Bot) :
  completed (after_post_events env b) = 0%nat.
Proof.
  unfold after_post_events. rewrite completed_app, completed_monitor_events.
  destruct (dm_outcome env); reflexivity.
Qed.

(** Away from midnight an iteration adds to [post_count] exactly the
posts it completes, and keeps the count under the quota. *)
Lemma iteration_counts_completed (env : Env) (b : Bot) :
  is_midnight env = false ->
  post_count b <= max_daily_posts b ->
  post_count (iteration_bot env b)
  = post_count b + Z.of_nat (completed (iteration_events env b))
  /\ post_count (iteration_bot env b) <= max_daily_posts (iteration_bot env b).
Proof.
  intros Hmid Hle.
  destruct (iteration_bot_keeps env b) as (_ & _ & -> & _).
  unfold iteration_bot, iteration_events, will_post, after_post_bot, posted.
  rewrite Hmid.
  destruct (current_time env - last_post_time b >=? auto_post_interval b); cbn [andb].
  - destruct (Z.ltb_spec (post_count b) (max_daily_posts b)) as [Hlt|Hge].
    + destruct (post_outcome env).
      * cbn. lia.
      * change (EvCreatePost :: ?x :: ?l) with ([EvCreatePost; x] ++ l).
        rewrite completed_app, completed_after_post_events.
        destruct (dm_outcome env); cbn; lia.
    + rewrite completed_after_post_events. destruct (dm_outcome env); cbn; lia.
  - rewrite completed_after_post_events. destruct (dm_outcome env); cbn; lia.
Qed.

Lemma loop_counts_completed (envs : list Env) :
  Forall (fun env => is_midnight env = false) envs ->
  forall b,
    post_count b <= max_daily_posts b ->
    post_count (loop_bot envs b) = post_count b + Z.of_nat (completed (loop_events envs b))
    /\ post_count (loop_bot envs b) <= max_daily_posts (loop_bot envs b)
    /\ max_daily_posts (loop_bot envs b) = max_daily_posts b.
Proof.
  induction 1 as [|env rest Hmid Hrest IH]; intros b Hle; cbn [loop_bot loop_events].
  - repeat split; [cbn; lia|exact Hle].
  - destruct (is_running b); [|repeat split; [cbn; lia|exact Hle]].
    destruct (iteration_counts_completed env b Hmid Hle) as [Hcount Hle'].
    destruct (iteration_bot_keeps env b) as (_ & _ & Hmax & _).
    destruct (IH (iteration_bot env b) Hle') as (Hcount' & Hle'' & Hmax').
    rewrite completed_app. repeat split; [lia|exact Hle''|congruence].
Qed.

Lemma loop_bot_keeps_quota (envs : list Env) :
  forall b, max_daily_posts (loop_bot envs b) = max_daily_posts b.
Proof.
  induction envs as [|env rest IH]; intros b; cbn [loop_bot]; [reflexivity|].
  destruct (is_running b); [|reflexivity].
  rewrite IH. apply iteration_bot_keeps.
Qed.

(** The daily quota is kept: in every run of [run_forever], whatever
raises and whenever midnight falls, [post_count] stays between 0 and
[max_daily_posts], and the quota itself is never changed. *)
Theorem post_count_stays_within_quota (envs : list Env) (s : State) :
  0 <= post_count (bot s) <= max_daily_posts (bot s) ->
  exists s',
    run_forever envs s = (inr tt, s')
    /\ max_daily_posts (bot s') = max_daily_posts (bot s)
    /\ 0 <= post_count (bot s') <= max_daily_posts (bot s').
Proof.
  intros Hrange. rewrite run_forever_closed. eexists. split; [reflexivity|].
  cbn [bot]. split.
  - rewrite loop_bot_keeps_quota. reflexivity.
  - apply loop_post_count_in_range. exact Hrange.
Qed.

(** Between two resets at most [max_daily_posts] posts are completed:
in a run in which the midnight test never fires, [post_count] grows by
exactly the number of posts completed, and that number is at most what
the quota had left. *)
Theorem completed_posts_fill_the_quota (envs : list Env) (s : State) :
  Forall (fun env => is_midnight env = false) envs ->
  post_count (bot s) <= max_daily_posts (bot s) ->
  exists s' events,
    run_forever envs s = (inr tt, s')
    /\ trace s' = trace s ++ events
    /\ post_count (bot s') = post_count (bot s) + Z.of_nat (completed events)
    /\ Z.of_nat (completed events) <= max_daily_posts (bot s) - post_count (bot s).
Proof.
  intros Hmid Hle. rewrite run_forever_closed. eexists _, _.
  split; [reflexivity|]. split; [reflexivity|]. cbn [bot].
  destruct (loop_counts_completed envs Hmid (set_is_running true (bot s)) Hle)
    as (Hcount & Hle' & Hmax).
  change (EvPrint MsgStarting :: ?l) with ([EvPrint MsgStarting] ++ l).
  rewrite completed_app. cbn [completed List.filter is_completed List.length Nat.add].
  cbn [post_count set_is_running max_daily_posts] in *. lia.
Qed.

(** A scheduled post that raises does not count: the bot is as before
(quota and time of the last post untouched), the rest of the iteration
is skipped for a sleep of 300 seconds, and on a clock that does not run
backwards the next iteration tries the post again. *)
Theorem failed_post_is_not_counted (env : Env) (s : State) (e : Exn) :
  will_post env (bot s) = true ->
  post_outcome env = Some e ->
  run_forever_iteration env s
  = (inr tt,
     mkState (bot s) (trace s ++ [EvCreatePost; EvPrint (MsgMainLoopError e); EvSleep 300]))
  /\ forall later, current_time env <= current_time later -> will_post later (bot s) = true.
Proof.
  intros Hpost Hout. split.
  - rewrite run_forever_iteration_closed. unfold iteration_bot, iteration_events.
    rewrite Hpost, Hout. reflexivity.
  - intros later Hlater. unfold will_post in *.
    apply andb_true_iff in Hpost. destruct Hpost as [Hdue Hquota].
    rewrite Hquota, andb_true_r.
    rewrite Z.geb_leb in *. apply Z.leb_le in Hdue. apply Z.leb_le. lia.
Qed.

(** The [if] that guards the post, by cases. *)
Lemma post_if_under_quota_run (env : Env) (s : State) :
  post_if_under_quota env s
  = if post_count (bot s) <? max_daily_posts (bot s) then
      match post_outcome env with
      | Some e => (inl e, mkState (bot s) (trace s ++ [EvCreatePost]))
      | None =>
          (inr tt,
           mkState (posted env (bot s))
                   (trace s ++ [EvCreatePost;
                                EvPrint (MsgAutoPostComplete (post_count (bot s) + 1)
                                                             (max_daily_posts (bot s)))]))
      end
    else (inr tt, s).
Proof.
  destruct s as [b tr]. unfold post_if_under_quota.
  unfold bind at 1. unfold self at 1. cbn [bot trace].
  destruct (post_count b <? max_daily_posts b); cbn [when]; [|reflexivity].
  unfold create_scheduled_post, action, update, print, emit, self, bind, modify, raise, ret.
  cbn [bot trace].
  destruct (post_outcome env); cbn [bot trace]; [reflexivity|].
  rewrite <- !app_assoc. reflexivity.
Qed.

(** Unlike [run_forever], [schedule_auto_posts] posts at once: in its
first iteration the scheduled post is the first thing that happens when
the quota allows, however little time has passed since the last post, and
the iteration raises nothing. *)
Theorem auto_posts_first_iteration_posts
    (settings : option DMSettings) (ae zd : Exn) (env : Env) (s : State) :
  post_count (bot s) < max_daily_posts (bot s) ->
  exists first_run s' events,
    schedule_auto_posts_iteration hz settings ae zd true env s = (inr first_run, s')
    /\ trace s' = trace s ++ EvCreatePost :: events.
Proof.
  intros Hquota. apply Z.ltb_lt in Hquota.
  destruct s as [b tr]. cbn [bot] in Hquota.
  unfold schedule_auto_posts_iteration, schedule_auto_posts_body, bind, self.
  cbn [bot trace orb]. rewrite post_if_under_quota_run. cbn [bot trace].
  rewrite Hquota.
  destruct (post_outcome env) as [e|].
  - unfold print, sleep, emit, modify, ret. cbn [bot trace].
    rewrite <- ?app_assoc. cbn [app]. eexists _, _, _. split; reflexivity.
  - unfold ret at 1.
    destruct settings as [dm|].
    + destruct (enabled dm && auto_reply dm); cbn [when];
        [destruct (reply_interval dm =? 0);
         [|destruct (current_time env mod reply_interval dm <? secs hz 60); cbn [when];
           [destruct (dm_outcome env) eqn:Hdm|]]|];
        destruct (current_time env mod secs hz 300 <? secs hz 60); cbn [when];
        try destruct (like_outcome env) eqn:Hlike;
        unfold handle_direct_messages, auto_like_trending_posts, action,
          bind, print, sleep, emit, modify, raise, ret;
        cbn [bot trace]; rewrite ?Hdm, ?Hlike; cbn [bot trace];
        rewrite <- ?app_assoc; cbn [app];
        eexists _, _, _; split; reflexivity.
    + unfold print, sleep, emit, modify, raise, ret. cbn [bot trace].
      rewrite <- ?app_assoc. cbn [app]. eexists _, _, _. split; reflexivity.
Qed.

End MoreOnTheLoops.

(** The bot as constructed at the epoch, through a post that is due. *)
Lemma post_count_stays_within_quota_witness :
  exists s',
    run_forever [calm_at 1 1800; calm_at 1 1866] (mkState (init 1 0 ∅) []) = (inr tt, s')
    /\ 0 <= post_count (bot s') <= max_daily_posts (bot s').
Proof.
  destruct (post_count_stays_within_quota [calm_at 1 1800; calm_at 1 1866]
              (mkState (init 1 0 ∅) []) ltac:(cbn; lia))
    as (s' & Hrun & _ & Hrange).
  exists s'. split; [exact Hrun|exact Hrange].
Defined.

(** Two iterations away from midnight from the scenario's bot. *)
Lemma completed_posts_fill_the_quota_witness :
  exists s' events,
    run_forever [calm_at 1 4000; calm_at 1 4066; calm_at 1 4132] scenario_start = (inr tt, s')
    /\ trace s' = [] ++ events
    /\ Z.of_nat (completed events) <= 2.
Proof.
  destruct (completed_posts_fill_the_quota
              [calm_at 1 4000; calm_at 1 4066; calm_at 1 4132] scenario_start
              ltac:(repeat constructor) ltac:(cbn; lia))
    as (s' & events & Hrun & Htrace & _ & Hle).
  exists s', events. split; [exact Hrun|]. split; [exact Htrace|exact Hle].
Defined.

(** The post is due and raises. *)
Lemma failed_post_is_not_counted_witness :
  run_forever_iteration (post_failure_at 1800) example_start
  = (inr tt,
     mkState example_bot [EvCreatePost; EvPrint (MsgMainLoopError boom); EvSleep 300]).
Proof.
  apply (failed_post_is_not_counted (post_failure_at 1800) example_start boom
           eq_refl eq_refl).
Defined.

(** One second after the construction of the bot. *)
Lemma auto_posts_first_iteration_posts_witness :
  exists first_run s' events,
    schedule_auto_posts_iteration 1 None attribute_error zero_division true
      (calm_at 1 1) example_start = (inr first_run, s')
    /\ trace s' = [] ++ EvCreatePost :: events.
Proof.
  apply (auto_posts_first_iteration_posts 1 None attribute_error zero_division
           (calm_at 1 1) example_start).
  cbn. lia.
Defined.

Section WithoutDMSettings.

Variable hz : positive.

Lemma only_posts_app (a b : list Event) :
  only_posts a -> only_posts b -> only_posts (a ++ b).
Proof.
  unfold only_posts. intros [Ha Hna] [Hb Hnb]. split.
  - rewrite actions_app. apply Forall_app. split; assumption.
  - intros Hin. apply in_app_or in Hin. tauto.
Qed.

Lemma auto_posts_iteration_without_dm_settings
    (ae zd : Exn) (first_run : bool) (env : Env) (s : State) :
  exists first_run' b' events,
    schedule_auto_posts_iteration hz None ae zd first_run env s
    = (inr first_run', mkState b' (trace s ++ events))
    /\ only_posts events
    /\ iterations events = 1%nat.
Proof.
  destruct s as [b tr].
  unfold schedule_auto_posts_iteration, schedule_auto_posts_body, bind, self.
  cbn [bot trace].
  destruct (first_run || (current_time env - last_post_time b >=? auto_post_interval b)).
  - rewrite post_if_under_quota_run. cbn [bot trace].
    destruct (post_count b <? max_daily_posts b); [destruct (post_outcome env)|];
      unfold print, sleep, emit, modify, raise, ret; cbn [bot trace];
      rewrite <- ?app_assoc; cbn [app];
      eexists _, _, _; (split; [reflexivity|]);
      (split; [split; [repeat constructor|intros Hin; cbn in Hin; intuition discriminate]
              |reflexivity]).
  - unfold print, sleep, emit, modify, raise, ret; cbn [bot trace].
    rewrite <- ?app_assoc; cbn [app].
    eexists _, _, _. split; [reflexivity|].
    split; [split; [repeat constructor|intros Hin; cbn in Hin; intuition discriminate]
           |reflexivity].
Qed.

(** With no [dm_settings] on the bot, which is how [__init__] leaves it,
[schedule_auto_posts] never handles direct messages and never likes
trending posts: every iteration ends in the [except] branch, so the only
action it ever performs is the scheduled post, and it sleeps 300 seconds,
never 60, after each iteration. *)
Theorem auto_posts_without_dm_settings_only_posts
    (ae zd : Exn) (envs : list Env) (s : State) :
  exists s' events,
    schedule_auto_posts hz None ae zd envs s = (inr tt, s')
    /\ trace s' = trace s ++ events
    /\ Forall (fun ev => ev = EvCreatePost) (actions events)
    /\ ~ In (EvSleep 60) events
    /\ iterations events = List.length envs.
Proof.
  assert (Hloop : forall envs first_run s,
            exists b' events,
              auto_posts_loop hz None ae zd first_run envs s
              = (inr tt, mkState b' (trace s ++ events))
              /\ only_posts events
              /\ iterations events = List.length envs).
  { clear envs s. induction envs as [|env rest IH]; intros first_run s.
    - exists (bot s), []. cbn [auto_posts_loop]. unfold ret. rewrite app_nil_r.
      destruct s. split; [reflexivity|]. split; [|reflexivity].
      split; [constructor|intros []].
    - cbn [auto_posts_loop]. unfold bind at 1.
      destruct (auto_posts_iteration_without_dm_settings ae zd first_run env s)
        as (fr & b1 & ev1 & Hrun & Honly & Hone).
      rewrite Hrun.
      destruct (IH fr (mkState b1 (trace s ++ ev1))) as (b2 & ev2 & Hrest & Honly2 & Hn).
      rewrite Hrest. cbn [trace]. exists b2, (ev1 ++ ev2). rewrite app_assoc.
      split; [reflexivity|]. split; [apply only_posts_app; assumption|].
      rewrite iterations_app, Hone, Hn. reflexivity. }
  unfold schedule_auto_posts. unfold bind at 1.
  unfold print at 1, emit at 1, modify at 1.
  destruct (Hloop envs true (mkState (bot s) (trace s ++ [EvPrint MsgStartingService])))
    as (b' & events & Hrun & [Hacts Hno60] & Hn).
  rewrite Hrun. cbn [trace]. eexists _, ([EvPrint MsgStartingService] ++ events).
  rewrite app_assoc. split; [reflexivity|]. split; [reflexivity|].
  split; [exact Hacts|]. split; [|exact Hn].
  intros [Hin|Hin]; [discriminate|exact (Hno60 Hin)].
Qed.

End WithoutDMSettings.

Section MidnightReset.

(** The reset sits behind the direct messages: in an iteration that
reads the clock at midnight, the count is reset to 0 when the iteration
gets through its [try] block, and is not reset when
[handle_direct_messages] raises. *)
Theorem dm_failure_skips_midnight_reset (env : Env) (s : State) :
  is_midnight env = true ->
  exists s',
    run_forever_iteration env s = (inr tt, s')
    /\ (dm_outcome env = None ->
        post_outcome env = None \/ will_post env (bot s) = false ->
        post_count (bot s') = 0)
    /\ (forall e, dm_outcome env = Some e -> post_count (bot s) <= post_count (bot s')).
Proof.
  intros Hmid. rewrite run_forever_iteration_closed. eexists. split; [reflexivity|].
  cbn [bot]. unfold iteration_bot, after_post_bot, posted. rewrite Hmid. split.
  - intros Hdm Hpost. rewrite Hdm.
    destruct (will_post env (bot s)); [|reflexivity].
    destruct Hpost as [->|Hno]; [reflexivity|discriminate].
  - intros e Hdm. rewrite Hdm.
    destruct (will_post env (bot s)); [destruct (post_outcome env)|];
      cbn [post_count set_post_count set_last_post_time]; lia.
Qed.

End MidnightReset.

(** Thirty seconds after midnight, with 5 posts counted, the direct
messages raise: the count stays at 5. *)
Lemma dm_failure_skips_midnight_reset_witness :
  exists s',
    run_forever_iteration (dm_failure_at 86430) (mkState (set_post_count 5 example_bot) [])
    = (inr tt, s')
    /\ 5 <= post_count (bot s').
Proof.
  destruct (dm_failure_skips_midnight_reset (dm_failure_at 86430)
              (mkState (set_post_count 5 example_bot) []) eq_refl)
    as (s' & Hrun & _ & Hkept).
  exists s'. split; [exact Hrun|exact (Hkept boom eq_refl)].
Defined.

End SchedulerFacts.

(** ** DM context store *)

Module DMStoreFacts.
Import DMStore.

Lemma absent_never_occurs (id : pystr) (ids : list pystr) :
  ~ In id ids -> List.filter (fun x => bool_decide (x = id)) ids = [].
Proof.
  induction ids as [|x rest IH]; intros Hfresh; [reflexivity|].
  cbn [List.filter]. destruct (bool_decide_reflect (x = id)) as [->|_].
  - exfalso. apply Hfresh. left. reflexivity.
  - apply IH. intros Hin. apply Hfresh. right. exact Hin.
Qed.

(** In a list without duplicates a member occurs exactly once. *)
Lemma occurs_once (id : pystr) (ids : list pystr) :
  base.NoDup ids -> In id ids ->
  List.length (List.filter (fun x => bool_decide (x = id)) ids) = 1%nat.
Proof.
  induction 1 as [|x rest Hfresh Hnodup IH]; intros Hin; [destruct Hin|].
  cbn [List.filter]. destruct (bool_decide_reflect (x = id)) as [->|Hne].
  - rewrite absent_never_occurs; [reflexivity|].
    intros Hin'. apply Hfresh, list_elem_of_In, Hin'.
  - apply IH. destruct Hin as [->|Hin]; [contradiction|exact Hin].
Qed.

Lemma record_idempotent (id : pystr) (st : Store) :
  record id (record id st) = record id st.
Proof.
  unfold record. cbn [replied].
  rewrite (assoc_L (∪)), union_idemp_L. reflexivity.
Qed.

(** A scan never replies to an id that the set already holds. *)
Lemma scan_skips_replied (incoming : list pystr) :
  forall (st : Store) (id : pystr),
    id ∈ replied st -> ~ In id (fst (scan incoming st)).
Proof.
  induction incoming as [|x rest IH]; intros st id Hid; cbn [scan].
  - intros [].
  - unfold has. destruct (bool_decide_reflect (x ∈ replied st)) as [Hx|Hx].
    + apply IH, Hid.
    + specialize (IH (record x st) id).
      destruct (scan rest (record x st)) as [sent st'] eqn:Hscan. cbn [fst] in *.
      intros [->|Hin]; [contradiction|].
      apply IH; [|exact Hin]. unfold record. cbn [replied]. set_solver.
Qed.

(** C8: loading a missing file gives the empty set and no error;
recording an id twice is the same as recording it once and leaves the id
exactly once in the persisted file; and a process started on an existing
file never replies to an id of that file, whatever messages come in. *)
Theorem C8_dm_store_contract :
  load None = inr ∅
  /\ (forall id st,
        record id (record id st) = record id st
        /\ occurrences id (file (record id (record id st))) = 1%nat
        /\ has id (replied (record id (record id st))) = true)
  /\ (forall ids incoming,
        exists st,
          start (Some ids) = inr st
          /\ forall id, In id ids -> ~ In id (fst (scan incoming st))).
Proof.
  split; [reflexivity|]. split.
  - intros id st. rewrite record_idempotent. split; [reflexivity|]. split.
    + unfold record, occurrences. cbn [file].
      apply occurs_once.
      * apply NoDup_elements.
      * apply list_elem_of_In, elem_of_elements. set_solver.
    + unfold has, record. cbn [replied]. apply bool_decide_eq_true. set_solver.
  - intros ids incoming. eexists. split; [reflexivity|].
    intros id Hid. apply scan_skips_replied. cbn [replied].
    apply elem_of_list_to_set, list_elem_of_In, Hid.
Qed.

End DMStoreFacts.

(** ** Hashtag monitoring in full *)

Module MonitorFacts.
Import Monitor.

Lemma replied_app (a b : list Event) : replied (a ++ b) = replied a ++ replied b.
Proof. unfold replied. apply flat_map_app. Qed.

Lemma confirmed_app (a b : list Event) : confirmed (a ++ b) = (confirmed a + confirmed b)%nat.
Proof. unfold confirmed. rewrite List.filter_app, length_app. reflexivity. Qed.

Section WithServices.

Variable hz : positive.
Context {Image Status : Type}.
Variable _clean_html : pystr -> pystr.
Variable _get_media_attachments : Status -> list Generator.Media.
Variable _download_image : pystr -> option Image.
Variable service : nat -> Generator.Request Image -> Exn + pystr.
Variable search_hashtag : nat -> string -> Z -> Exn + list Post.
Variable random_random : nat -> Z.
Variable reply_to_post : nat -> pystr -> option pystr -> option Exn.

Local Abbreviation St := (State Image).
Local Abbreviation generate_response :=
  (Monitor.generate_response hz _clean_html _get_media_attachments _download_image service).
Local Abbreviation reply_to_some :=
  (Monitor.reply_to_some hz _clean_html _get_media_attachments _download_image service
     random_random reply_to_post).
Local Abbreviation monitor_hashtag :=
  (Monitor.monitor_hashtag hz _clean_html _get_media_attachments _download_image service
     search_hashtag random_random reply_to_post).
Local Abbreviation chosen := (Monitor.chosen random_random).

(** Generating a response raises nothing, returns a trimmed string of at
most 240 code points, and touches only the generator and the clock. *)
Lemma generate_response_run (text : pystr) (s : St) :
  exists response w g,
    generate_response text s
    = (inr (Some response),
       mkState w g (trace s) (searches s) (draws s) (replies s))
    /\ len response <= 240
    /\ strip response = response.
Proof.
  unfold Monitor.generate_response.
  destruct (GeneratorFacts.generate_returns_trimmed
              _clean_html _get_media_attachments _download_image service
              text None Generator.default_max_retries (generator s))
    as (response & g & Hrun & Htrim & Hlen); [unfold Generator.default_max_retries; lia|].
  rewrite Hrun. eexists response, _, g. split; [reflexivity|]. split; assumption.
Qed.

(** The loop over the posts found: [n] replies are attempted, to the
first [n] posts the draws pick; all but possibly the last are confirmed,
and the loop raises exactly when the last one is refused. *)
Lemma reply_to_some_run (hashtag : string) (posts : list Post) :
  forall s : St,
    exists (n : nat) (result : Exn + unit) (s' : St) (events : list Event),
      reply_to_some hashtag posts s = (result, s')
      /\ trace s' = trace s ++ events
      /\ replies s' = (replies s + n)%nat
      /\ searches s' = searches s
      /\ replied events = firstn n (List.map post_id (chosen posts (draws s)))
      /\ (n <= List.length (chosen posts (draws s)))%nat
      /\ Forall reply_in_shape events
      /\ (forall i, (i < confirmed events)%nat ->
            exists id response, reply_to_post (replies s + i)%nat id response = None)
      /\ match result with
         | inr _ =>
             n = List.length (chosen posts (draws s)) /\ confirmed events = n
         | inl e =>
             (1 <= n)%nat /\ confirmed events = (n - 1)%nat
             /\ (exists id response,
                   reply_to_post (replies s + n - 1)%nat id response = Some e)
             /\ exists id response before, events = before ++ [EvReply id response]
         end.
Proof.
  induction posts as [|post rest IH]; intros s.
  - exists 0%nat, (inr tt), s, []. cbn [Monitor.reply_to_some Monitor.chosen List.map firstn].
    unfold ret. rewrite app_nil_r, Nat.add_0_r.
    repeat (split; [reflexivity || constructor || lia|]).
    split; [intros i Hi; cbn in Hi; lia|]. split; reflexivity.
  - cbn [Monitor.reply_to_some Monitor.chosen]. unfold bind at 1. unfold random at 1.
    set (s0 := mkState (limiter s) (generator s) (trace s) (searches s)
                       (S (draws s)) (replies s)).
    destruct (below_0_3 (random_random (draws s))).
    + unfold bind at 1. unfold bind at 1.
      destruct (generate_response_run (content post) s0)
        as (response & w & g & Hgen & Hlen & Htrim).
      rewrite Hgen. cbn [trace searches draws replies s0].
      unfold bind at 1. unfold reply at 1. cbn [trace searches draws replies limiter generator].
      destruct (reply_to_post (replies s) (post_id post) (Some response)) as [e|] eqn:Hreply.
      * exists 1%nat, (inl e). eexists _, [EvReply (post_id post) (Some response)].
        split; [reflexivity|]. cbn [trace replies searches List.map firstn].
        split; [reflexivity|]. split; [lia|]. split; [reflexivity|].
        split; [reflexivity|]. split; [cbn [List.length]; lia|].
        split; [repeat constructor; exists response; repeat split; assumption|].
        split; [intros i Hi; cbn in Hi; lia|].
        split; [lia|]. split; [reflexivity|]. split.
        -- exists (post_id post), (Some response).
           replace (replies s + 1 - 1)%nat with (replies s) by lia. exact Hreply.
        -- exists (post_id post), (Some response), []. reflexivity.
      * unfold bind at 1. unfold print at 1, emit at 1, modify at 1.
        cbn [trace searches draws replies limiter generator].
        unfold asyncio_sleep at 1.
        cbn [trace searches draws replies limiter generator].
        match goal with |- context [reply_to_some hashtag rest ?s2] =>
          destruct (IH s2)
            as (n & result & s' & events & Hrun & Htrace & Hreplies & Hsearches
                & Hids & Hn & Hshape & Hok & Hend)
        end.
        cbn [trace searches draws replies] in *.
        rewrite Hrun. exists (S n), result, s'.
        exists ([EvReply (post_id post) (Some response);
                 EvPrint (MsgReplied hashtag); EvSleep 30] ++ events).
        split; [reflexivity|].
        split; [rewrite Htrace, <- !app_assoc; reflexivity|].
        split; [lia|]. split; [exact Hsearches|].
        split; [rewrite replied_app, Hids; reflexivity|].
        split; [cbn [List.length]; lia|].
        split; [apply Forall_app; split; [|exact Hshape];
                repeat constructor; exists response; repeat split; assumption|].
        rewrite confirmed_app.
        change (confirmed [EvReply (post_id post) (Some response);
                           EvPrint (MsgReplied hashtag); EvSleep 30]) with 1%nat.
        split.
        -- intros [|i] Hi.
           ++ exists (post_id post), (Some response). rewrite Nat.add_0_r. exact Hreply.
           ++ destruct (Hok i ltac:(lia)) as (id & resp & Hnone).
              exists id, resp. rewrite <- Hnone. f_equal. lia.
        -- destruct result as [e|[]].
           ++ destruct Hend as (Hn1 & Hc & (id & resp & Hfail) & (id' & resp' & before & Hlast)).
              split; [lia|]. split; [lia|]. split.
              ** exists id, resp. rewrite <- Hfail. f_equal. lia.
              ** exists id', resp'. eexists. rewrite Hlast, app_assoc. reflexivity.
           ++ destruct Hend as [-> Hc]. split; [reflexivity|]. lia.
    + unfold bind at 1. unfold ret at 1.
      destruct (IH s0)
        as (n & result & s' & events & Hrun & Htrace & Hreplies & Hsearches
            & Hids & Hn & Hshape & Hok & Hend).
      cbn [trace searches draws replies s0] in *.
      rewrite Hrun. exists n, result, s', events.
      split; [reflexivity|]. repeat (split; [assumption|]). exact Hend.
Qed.

(** [monitor_hashtag], by the outcome of the search and of the loop. *)
Lemma monitor_hashtag_unfold (hashtag : string) (s : St) :
  exists w,
    RateLimiter._handle_rate_limit hz (limiter s) = (inr tt, w)
    /\ monitor_hashtag hashtag s
       = match search_hashtag (searches s) hashtag 5 with
         | inl e =>
             (inr tt,
              mkState w (generator s)
                      (trace s ++ [EvSearch hashtag 5; EvPrint (MsgError hashtag e)])
                      (S (searches s)) (draws s) (replies s))
         | inr posts =>
             match reply_to_some hashtag posts
                     (mkState w (generator s) (trace s ++ [EvSearch hashtag 5])
                              (S (searches s)) (draws s) (replies s)) with
             | (inl e, s') =>
                 (inr tt,
                  mkState (limiter s') (generator s')
                          (trace s' ++ [EvPrint (MsgError hashtag e)])
                          (searches s') (draws s') (replies s'))
             | (inr _, s') => (inr tt, s')
             end
         end.
Proof.
  destruct (RateLimiterFacts.handle_rate_limit_run hz (limiter s)) as (w & Hlimit & _).
  exists w. split; [exact Hlimit|].
  unfold Monitor.monitor_hashtag, try_except.
  unfold bind at 1. unfold Monitor._handle_rate_limit at 1. rewrite Hlimit.
  unfold bind at 1. unfold search at 1. cbn [limiter generator trace searches draws replies].
  destruct (search_hashtag (searches s) hashtag 5) as [e|posts].
  - unfold print, emit, modify. cbn [limiter generator trace searches draws replies].
    rewrite <- app_assoc. reflexivity.
  - destruct (reply_to_some hashtag posts _) as [[e|[]] s']; [|reflexivity].
    unfold print, emit, modify. reflexivity.
Qed.

(** [monitor_hashtag] raises nothing, whatever the search or a reply
raises; it searches once, with a limit of 5, and every reply it sends
carries a string of at most 240 code points without white space at its
ends, never [None]. *)
Theorem monitor_hashtag_absorbs_errors (hashtag : string) (s : St) :
  exists s' events,
    monitor_hashtag hashtag s = (inr tt, s')
    /\ trace s' = trace s ++ EvSearch hashtag 5 :: events
    /\ searches s' = S (searches s)
    /\ Forall reply_in_shape events.
Proof.
  destruct (monitor_hashtag_unfold hashtag s) as (w & _ & ->).
  destruct (search_hashtag (searches s) hashtag 5) as [e|posts].
  - eexists _, [EvPrint (MsgError hashtag e)]. split; [reflexivity|].
    split; [reflexivity|]. split; [reflexivity|]. repeat constructor.
  - match goal with |- context [reply_to_some hashtag posts ?s2] =>
      destruct (reply_to_some_run hashtag posts s2)
        as (n & result & s' & events & Hrun & Htrace & _ & Hsearches & _ & _ & Hshape & _)
    end.
    rewrite Hrun. cbn [trace searches] in Htrace, Hsearches.
    destruct result as [e|[]].
    + eexists _, (events ++ [EvPrint (MsgError hashtag e)]). split; [reflexivity|].
      cbn [trace searches]. rewrite Htrace, <- !app_assoc.
      split; [reflexivity|]. split; [exact Hsearches|].
      apply Forall_app. split; [exact Hshape|repeat constructor].
    + exists s', events. split; [reflexivity|]. rewrite Htrace, <- app_assoc.
      split; [reflexivity|]. split; [exact Hsearches|exact Hshape].
Qed.

(** When the search raises, the error is printed and nothing else
happens: no draw, no call to the generator, no reply. *)
Theorem failed_search_replies_to_nothing (hashtag : string) (s : St) (e : Exn) :
  search_hashtag (searches s) hashtag 5 = inl e ->
  exists w,
    monitor_hashtag hashtag s
    = (inr tt,
       mkState w (generator s)
               (trace s ++ [EvSearch hashtag 5; EvPrint (MsgError hashtag e)])
               (S (searches s)) (draws s) (replies s)).
Proof.
  intros Hsearch. destruct (monitor_hashtag_unfold hashtag s) as (w & _ & ->).
  rewrite Hsearch. exists w. reflexivity.
Qed.

(** When the search succeeds and no reply is refused, the posts replied
to are exactly the posts whose draw is below 0.3, in the order found, and
every reply is confirmed. *)
Theorem replies_go_to_the_drawn_posts (hashtag : string) (s : St) (posts : list Post) :
  search_hashtag (searches s) hashtag 5 = inr posts ->
  (forall k id response, reply_to_post k id response = None) ->
  exists s' events,
    monitor_hashtag hashtag s = (inr tt, s')
    /\ trace s' = trace s ++ EvSearch hashtag 5 :: events
    /\ replied events = List.map post_id (chosen posts (draws s))
    /\ confirmed events = List.length (chosen posts (draws s)).
Proof.
  intros Hsearch Haccept. destruct (monitor_hashtag_unfold hashtag s) as (w & _ & ->).
  rewrite Hsearch.
  match goal with |- context [reply_to_some hashtag posts ?s2] =>
    destruct (reply_to_some_run hashtag posts s2)
      as (n & result & s' & events & Hrun & Htrace & _ & _ & Hids & _ & _ & _ & Hend)
  end.
  rewrite Hrun. cbn [trace draws] in Htrace, Hids, Hend.
  destruct result as [e|[]].
  - destruct Hend as (_ & _ & (id & response & Hrefused) & _).
    rewrite Haccept in Hrefused. discriminate.
  - destruct Hend as [-> Hconfirmed]. exists s', events.
    split; [reflexivity|]. rewrite Htrace, <- app_assoc. split; [reflexivity|].
    rewrite Hids, firstn_all2 by (rewrite length_map; lia).
    split; [reflexivity|exact Hconfirmed].
Qed.

(** A refused reply ends the hashtag: when the first [k] replies are
accepted and the next one raises, the posts replied to are the first
[k + 1] drawn posts, [k] replies are confirmed, the error is the last
thing printed, and the drawn posts after that get no reply. *)
Theorem refused_reply_ends_the_hashtag
    (hashtag : string) (s : St) (posts : list Post) (k : nat) (e : Exn) :
  search_hashtag (searches s) hashtag 5 = inr posts ->
  (k < List.length (chosen posts (draws s)))%nat ->
  (forall i id response, (i < k)%nat -> reply_to_post (replies s + i)%nat id response = None) ->
  (forall id response, reply_to_post (replies s + k)%nat id response = Some e) ->
  exists s' events,
    monitor_hashtag hashtag s = (inr tt, s')
    /\ trace s' = trace s ++ EvSearch hashtag 5 :: events ++ [EvPrint (MsgError hashtag e)]
    /\ replied events = firstn (S k) (List.map post_id (chosen posts (draws s)))
    /\ confirmed events = k
    /\ replies s' = (replies s + S k)%nat.
Proof.
  intros Hsearch Hk Haccept Hrefuse.
  destruct (monitor_hashtag_unfold hashtag s) as (w & _ & ->). rewrite Hsearch.
  match goal with |- context [reply_to_some hashtag posts ?s2] =>
    destruct (reply_to_some_run hashtag posts s2)
      as (n & result & s' & events & Hrun & Htrace & Hreplies & _ & Hids & Hn & _ & Hok & Hend)
  end.
  rewrite Hrun. cbn [trace draws replies] in Htrace, Hreplies, Hids, Hn, Hok, Hend.
  destruct result as [e'|[]].
  - destruct Hend as (Hn1 & Hconfirmed & (id & response & Hfail) & _).
    assert (Hnk : n = S k).
    { destruct (Nat.lt_trichotomy (n - 1) k) as [Hlt|[Heq|Hgt]]; [| lia |].
      - replace (replies s + n - 1)%nat with (replies s + (n - 1))%nat in Hfail by lia.
        rewrite (Haccept (n - 1)%nat id response Hlt) in Hfail. discriminate.
      - destruct (Hok k ltac:(lia)) as (id' & response' & Hnone).
        rewrite Hrefuse in Hnone. discriminate. }
    subst n.
    replace (replies s + S k - 1)%nat with (replies s + k)%nat in Hfail by lia.
    rewrite Hrefuse in Hfail. injection Hfail as <-.
    eexists _, events. split; [reflexivity|]. cbn [trace replies].
    rewrite Htrace, <- !app_assoc. split; [reflexivity|].
    split; [exact Hids|]. split; [lia|exact Hreplies].
  - destruct Hend as [-> Hconfirmed].
    destruct (Hok k ltac:(lia)) as (id' & response' & Hnone).
    rewrite Hrefuse in Hnone. discriminate.
Qed.

End WithServices.

(** The search is down. *)
Lemma failed_search_witness :
  trace (snd (example_monitor search_down reply_accepted))
  = [EvSearch "tech" 5; EvPrint (MsgError "tech" (Exception (py "503")))].
Proof.
  destruct (failed_search_replies_to_nothing 1 Generator.plain Generator.no_media
              Generator.no_image Generator.failing_once search_down always_low
              reply_accepted "tech" fresh (Exception (py "503")) eq_refl)
    as (w & Hrun).
  unfold example_monitor. rewrite Hrun. reflexivity.
Defined.

(** Two posts found, both drawn, every reply accepted. *)
Lemma replies_go_to_the_drawn_posts_witness :
  replied (trace (snd (example_monitor found_two reply_accepted))) = [py "101"; py "102"].
Proof.
  destruct (replies_go_to_the_drawn_posts 1 Generator.plain Generator.no_media
              Generator.no_image Generator.failing_once found_two always_low
              reply_accepted "tech" fresh two_posts eq_refl (fun _ _ _ => eq_refl))
    as (s' & events & Hrun & Htrace & Hids & _).
  unfold example_monitor. rewrite Hrun. cbn [snd]. rewrite Htrace.
  cbn [trace fresh app replied flat_map]. exact Hids.
Defined.

(** Two posts found, both drawn, the first reply refused: the second
post gets no reply. *)
Lemma refused_reply_witness :
  replied (trace (snd (example_monitor found_two reply_refused))) = [py "101"].
Proof.
  destruct (refused_reply_ends_the_hashtag 1 Generator.plain Generator.no_media
              Generator.no_image Generator.failing_once found_two always_low
              reply_refused "tech" fresh two_posts 0 (Exception (py "403")) eq_refl
              ltac:(vm_compute; lia) ltac:(intros; lia) ltac:(reflexivity))
    as (s' & events & Hrun & Htrace & Hids & _).
  unfold example_monitor. rewrite Hrun. cbn [snd]. rewrite Htrace.
  cbn [trace fresh app replied flat_map]. rewrite replied_app, Hids. reflexivity.
Defined.

End MonitorFacts.
